(** * log_api_system: the cache-aside classification engine

    A shallow embedding of [cache.py], [core.py] and the tally loop of
    [app.py], followed by the properties of the parsers, the cache stores
    and the analyser.

    Conventions.
    - A Python [str] is a list of Unicode code points ([N]); [Py.lit]
      turns an ASCII literal into one.
    - A call either returns a value or raises: [Py.res].
    - A level is what [parse_level] returns: one of the three names, or
      Python's [None]. The source has no literal for the fourth level of
      the data model; the fall-through of [parse_level] returns [None],
      and that value is the level called UNKNOWN.
    - Objects that are mutated (the cache backend, [self.counts]) live in
      an explicit state that every call threads.
    - What the program imports is modelled as far as the program uses
      it: [str.strip] and [str.split], [json.loads], [str.encode] and
      [hashlib.sha256], and the Redis commands GET, SETEX, INCR and
      EXPIRE behind the redis-py client. A connection that fails is not
      modelled. *)

From Stdlib Require Import ZArith NArith List String Ascii Lia Bool.
From stdpp Require Import gmap list.

Local Open Scope Z_scope.

(* ------------------------------------------------------------------ *)
(** ** Python strings, results and exceptions *)

Module Py.

Definition str := list N.

Definition lit (s : string) : str :=
  map (fun a => N_of_ascii a) (list_ascii_of_string s).

(** A literal in which each apostrophe stands for a double quote. *)
Definition qlit (s : string) : str :=
  map (fun c => if (c =? 0x27)%N then 0x22%N else c) (lit s).

Inductive exn :=
| IndexError
| AttributeError
| TypeError
| ValueError
| UnicodeEncodeError
| JSONDecodeError
| RecursionError
| DataError        (* redis.exceptions.DataError *)
| ResponseError.   (* redis.exceptions.ResponseError *)

Inductive res (A : Type) :=
| Ret (a : A)
| Raise (e : exn).
Arguments Ret {A} a.
Arguments Raise {A} e.

(** Sequencing: an exception of the first call ends the computation. *)
Definition bind {A B} (r : res A) (k : A -> res B) : res B :=
  match r with Ret a => k a | Raise e => Raise e end.

Declare Scope res_scope.
Delimit Scope res_scope with res.
Notation "'let*' x := e 'in' k" := (bind e (fun x => k))
  (at level 10, x pattern, e at level 100, k at level 200) : res_scope.

(** [str.isspace] on one code point: the ASCII table of CPython
    (TAB..CR, FS..US, SPACE) and the Unicode white space above it. *)
Definition isspace (c : N) : bool :=
  ((0x09 <=? c) && (c <=? 0x0D) || (0x1C <=? c) && (c <=? 0x20)
   || (c =? 0x85) || (c =? 0xA0) || (c =? 0x1680)
   || (0x2000 <=? c) && (c <=? 0x200A)
   || (c =? 0x2028) || (c =? 0x2029) || (c =? 0x202F)
   || (c =? 0x205F) || (c =? 0x3000))%N.

Fixpoint lstrip (s : str) : str :=
  match s with
  | c :: s' => if isspace c then lstrip s' else s
  | [] => []
  end.

Definition rstrip (s : str) : str := rev (lstrip (rev s)).

(** [s.strip()] *)
Definition strip (s : str) : str := rstrip (lstrip s).

(** [s.split()] with no separator: runs of white space separate the
    words and no empty word is produced. [word] is the word being
    read, last character first. *)
Fixpoint split_from (word : str) (s : str) : list str :=
  match s with
  | [] => match word with [] => [] | _ => [rev word] end
  | c :: s' =>
      if isspace c
      then match word with
           | [] => split_from [] s'
           | _ => rev word :: split_from [] s'
           end
      else split_from (c :: word) s'
  end.

Definition split (s : str) : list str := split_from [] s.

End Py.

Import Py.

(** The value of a level: [Some name], or [None] for Python's [None]. *)
Definition level := option str.

Definition INFO : str := lit "INFO".
Definition WARNING : str := lit "WARNING".
Definition ERROR : str := lit "ERROR".
Definition UNKNOWN : level := None.

(** The set literal [{"INFO", "WARNING", "ERROR"}]. *)
Definition LEVELS : list str := [INFO; WARNING; ERROR].

(* ------------------------------------------------------------------ *)
(** ** core.py: the parsers *)

Definition BaseParser := str -> res level.

Module PlainTextParser.

Definition parse_level (line : str) : res level :=
  let parts := split (strip line) in
  match parts !! 2%nat with
  | None => Raise IndexError                      (* parts[2] *)
  | Some level =>
      if bool_decide (level ∈ LEVELS) then Ret (Some level)
      else Ret None
  end.

End PlainTextParser.

(* ------------------------------------------------------------------ *)
(** ** The standard library's [json.loads]

    A model of CPython's decoder ([json.decoder], [json.scanner]) on the
    rest of the input instead of an index. Every syntax fault is a
    [JSONDecodeError]; its message and position are not modelled. A
    float keeps its lexeme. *)

Module Json.

Local Open Scope res_scope.
Local Open Scope N_scope.

#[warnings="-register-all"]
Inductive value :=
| JNone
| JBool (b : bool)
| JInt (n : Z)
| JFloat (lexeme : str)
| JStr (s : str)
| JList (items : list value)
| JDict (pairs : list (str * value)).

Definition eqc (a : ascii) (c : N) : bool := c =? N_of_ascii a.

(** [WHITESPACE]: space, tab, line feed, carriage return. *)
Definition ws (c : N) : bool :=
  (c =? 0x20) || (c =? 0x09) || (c =? 0x0A) || (c =? 0x0D).

Fixpoint skip_ws (s : str) : str :=
  match s with
  | c :: s' => if ws c then skip_ws s' else s
  | [] => []
  end.

Fixpoint startswith (p s : str) : option str :=
  match p, s with
  | [], _ => Some s
  | a :: p', b :: s' => if a =? b then startswith p' s' else None
  | _ :: _, [] => None
  end.

Definition isdigit (c : N) : bool := (0x30 <=? c) && (c <=? 0x39).

Definition hexval (c : N) : option N :=
  if isdigit c then Some (c - 0x30)
  else if (0x41 <=? c) && (c <=? 0x46) then Some (c - 0x41 + 10)
  else if (0x61 <=? c) && (c <=? 0x66) then Some (c - 0x61 + 10)
  else None.

(** [_decode_uXXXX]: four hexadecimal digits. *)
Definition decode_uXXXX (h1 h2 h3 h4 : N) : res N :=
  match hexval h1, hexval h2, hexval h3, hexval h4 with
  | Some a, Some b, Some c, Some d => Ret (((a * 16 + b) * 16 + c) * 16 + d)
  | _, _, _, _ => Raise JSONDecodeError
  end.

(** [BACKSLASH]: the one-letter escapes. *)
Definition BACKSLASH (c : N) : option N :=
  if (c =? 0x22) then Some 0x22
  else if eqc "\" c then Some 0x5C
  else if eqc "/" c then Some 0x2F
  else if eqc "b" c then Some 0x08
  else if eqc "f" c then Some 0x0C
  else if eqc "n" c then Some 0x0A
  else if eqc "r" c then Some 0x0D
  else if eqc "t" c then Some 0x09
  else None.

(** [scanstring] in strict mode, from the character after the opening
    quote; [acc] is the text read, last character first. *)
Fixpoint scanstring (acc : str) (s : str) : res (str * str) :=
  match s with
  | [] => Raise JSONDecodeError
  | c :: r =>
      if (c =? 0x22) then Ret (rev acc, r)
      else if eqc "\" c then
        match r with
        | [] => Raise JSONDecodeError
        | e :: r1 =>
            if eqc "u" e then
              match r1 with
              | h1 :: h2 :: h3 :: h4 :: r2 =>
                  match decode_uXXXX h1 h2 h3 h4 with
                  | Raise x => Raise x
                  | Ret uni =>
                      if (0xD800 <=? uni) && (uni <=? 0xDBFF) then
                        match r2 with
                        | b :: u :: r3 =>
                            if eqc "\" b && eqc "u" u then
                              match r3 with
                              | g1 :: g2 :: g3 :: g4 :: r4 =>
                                  match decode_uXXXX g1 g2 g3 g4 with
                                  | Raise x => Raise x
                                  | Ret uni2 =>
                                      if (0xDC00 <=? uni2) && (uni2 <=? 0xDFFF)
                                      then scanstring
                                             (0x10000 + N.lor (N.shiftl (uni - 0xD800) 10)
                                                              (uni2 - 0xDC00) :: acc) r4
                                      else scanstring (uni :: acc) r2
                                  end
                              | _ => Raise JSONDecodeError
                              end
                            else scanstring (uni :: acc) r2
                        | _ => scanstring (uni :: acc) r2
                        end
                      else scanstring (uni :: acc) r2
                  end
              | _ => Raise JSONDecodeError
              end
            else
              match BACKSLASH e with
              | Some ch => scanstring (ch :: acc) r1
              | None => Raise JSONDecodeError
              end
        end
      else if c <? 0x20 then Raise JSONDecodeError
      else scanstring (c :: acc) r
  end.

(** The longest run of decimal digits at the head of [s]. *)
Fixpoint digits (s : str) : str * str :=
  match s with
  | c :: s' => if isdigit c then let '(d, r) := digits s' in (c :: d, r)
               else ([], s)
  | [] => ([], [])
  end.

(** [NUMBER_RE]: an optional minus sign and either a zero or a digit
    1-9 followed by digits; then, optionally, a point and one digit or
    more; then, optionally, an e or E, an optional sign and one digit
    or more. The three groups and the rest of the input. *)
Definition match_integer (s : str) : option (str * str) :=
  let '(sign, s1) := match s with
                     | c :: s' => if eqc "-" c then ([c], s') else ([], s)
                     | [] => ([], s)
                     end in
  match s1 with
  | c :: s2 =>
      if eqc "0" c then Some (sign ++ [c], s2)
      else if isdigit c then let '(d, r) := digits s2 in Some (sign ++ c :: d, r)
      else None
  | [] => None
  end.

Definition match_frac (s : str) : str * str :=
  match s with
  | c :: s1 =>
      if eqc "." c then
        match digits s1 with
        | ([], _) => ([], s)
        | (d, r) => (c :: d, r)
        end
      else ([], s)
  | [] => ([], s)
  end.

Definition match_exp (s : str) : str * str :=
  match s with
  | c :: s1 =>
      if eqc "e" c || eqc "E" c then
        let '(sign, s2) := match s1 with
                           | x :: s' => if eqc "-" x || eqc "+" x then ([x], s') else ([], s1)
                           | [] => ([], s1)
                           end in
        match digits s2 with
        | ([], _) => ([], s)
        | (d, r) => (c :: sign ++ d, r)
        end
      else ([], s)
  | [] => ([], s)
  end.

Definition match_number (s : str) : option (str * str * str * str) :=
  match match_integer s with
  | None => None
  | Some (integer, s1) =>
      let '(frac, s2) := match_frac s1 in
      let '(exp, s3) := match_exp s2 in
      Some (integer, frac, exp, s3)
  end.

(** [int(integer)] on a group matched by [NUMBER_RE]; CPython refuses
    more than 4300 digits ([sys.int_max_str_digits]). *)
Definition parse_digits (d : str) : Z :=
  fold_left (fun acc c => (acc * 10 + Z.of_N (c - 0x30))%Z) d 0%Z.

Definition parse_int (integer : str) : res Z :=
  match integer with
  | c :: d =>
      if eqc "-" c
      then if (4300 <? length d)%nat then Raise ValueError
           else Ret (- parse_digits d)%Z
      else if (4300 <? length integer)%nat then Raise ValueError
           else Ret (parse_digits integer)
  | [] => Raise ValueError
  end.

(** [JSONArray], from the character after the bracket. [scan_once] is
    passed in, as in the library; [n] bounds the number of items. *)
Fixpoint array_items (scan_once : str -> res (value * str))
         (n : nat) (acc : list value) (s : str) : res (value * str) :=
  match n with
  | O => Raise RecursionError
  | S n' =>
      let* (v, r) := scan_once s in
      match skip_ws r with
      | c :: r1 =>
          if eqc "]" c then Ret (JList (rev (v :: acc)), r1)
          else if eqc "," c then array_items scan_once n' (v :: acc) (skip_ws r1)
          else Raise JSONDecodeError
      | [] => Raise JSONDecodeError
      end
  end.

Definition JSONArray (scan_once : str -> res (value * str))
           (n : nat) (s : str) : res (value * str) :=
  match skip_ws s with
  | c :: r => if eqc "]" c then Ret (JList [], r)
              else array_items scan_once n [] (c :: r)
  | [] => array_items scan_once n [] []
  end.

(** [JSONObject], from the character after the brace; [object_pairs]
    starts after the opening quote of a key. *)
Fixpoint object_pairs (scan_once : str -> res (value * str))
         (n : nat) (acc : list (str * value)) (s : str) : res (value * str) :=
  match n with
  | O => Raise RecursionError
  | S n' =>
      let* (key, r) := scanstring [] s in
      match skip_ws r with
      | c :: r1 =>
          if eqc ":" c then
            let* (v, r2) := scan_once (skip_ws r1) in
            match skip_ws r2 with
            | d :: r3 =>
                if eqc "}" d then Ret (JDict (rev ((key, v) :: acc)), r3)
                else if eqc "," d then
                  match skip_ws r3 with
                  | q :: r4 =>
                      if (q =? 0x22)
                      then object_pairs scan_once n' ((key, v) :: acc) r4
                      else Raise JSONDecodeError
                  | [] => Raise JSONDecodeError
                  end
                else Raise JSONDecodeError
            | [] => Raise JSONDecodeError
            end
          else Raise JSONDecodeError
      | [] => Raise JSONDecodeError
      end
  end.

Definition JSONObject (scan_once : str -> res (value * str))
           (n : nat) (s : str) : res (value * str) :=
  match skip_ws s with
  | c :: r =>
      if eqc "}" c then Ret (JDict [], r)
      else if (c =? 0x22) then object_pairs scan_once n [] r
      else Raise JSONDecodeError
  | [] => Raise JSONDecodeError
  end.

(** [_scan_once]; [StopIteration] is what its callers turn into
    [JSONDecodeError]. [fuel] bounds the nesting depth; [loads] gives
    more of it than its input can nest, so a value of any depth is
    decoded. CPython gives up with [RecursionError] at a depth set by
    the recursion limit of the interpreter, which is not modelled: the
    properties of the structured parser take the result of [loads] as
    given. *)
Fixpoint scan_once (fuel : nat) (s : str) : res (value * str) :=
  match fuel with
  | O => Raise RecursionError
  | S fuel' =>
      match s with
      | [] => Raise JSONDecodeError
      | c :: r =>
          if (c =? 0x22) then let* (t, r1) := scanstring [] r in Ret (JStr t, r1)
          else if eqc "{" c then JSONObject (scan_once fuel') fuel' r
          else if eqc "[" c then JSONArray (scan_once fuel') fuel' r
          else
            match startswith (lit "null") s, startswith (lit "true") s,
                  startswith (lit "false") s with
            | Some r1, _, _ => Ret (JNone, r1)
            | _, Some r1, _ => Ret (JBool true, r1)
            | _, _, Some r1 => Ret (JBool false, r1)
            | None, None, None =>
                match match_number s with
                | Some (integer, frac, exp, r1) =>
                    match frac, exp with
                    | [], [] => let* n := parse_int integer in Ret (JInt n, r1)
                    | _, _ => Ret (JFloat (integer ++ frac ++ exp), r1)
                    end
                | None =>
                    match startswith (lit "NaN") s, startswith (lit "Infinity") s,
                          startswith (lit "-Infinity") s with
                    | Some r1, _, _ => Ret (JFloat (lit "NaN"), r1)
                    | _, Some r1, _ => Ret (JFloat (lit "Infinity"), r1)
                    | _, _, Some r1 => Ret (JFloat (lit "-Infinity"), r1)
                    | None, None, None => Raise JSONDecodeError
                    end
                end
            end
      end
  end.

(** [json.loads(s)] for a [str]: no byte order mark, one value, and
    nothing but white space after it. *)
Definition loads (s : str) : res value :=
  match s with
  | 0xFEFF :: _ => Raise JSONDecodeError
  | _ =>
      let* (obj, r) := scan_once (S (length s)) (skip_ws s) in
      match skip_ws r with
      | [] => Ret obj
      | _ :: _ => Raise JSONDecodeError
      end
  end.

(** [dict(pairs).get(key)]: the last pair with that key wins; [None]
    when there is none. *)
Fixpoint dict_get (key : str) (pairs : list (str * value)) : value :=
  match pairs with
  | [] => JNone
  | (k, v) :: rest =>
      if bool_decide (k = key) && negb (existsb (fun p => bool_decide (p.1 = key)) rest)
      then v else dict_get key rest
  end.

(** [obj.get(key)] on whatever [loads] returned. *)
Definition get (obj : value) (key : str) : res value :=
  match obj with
  | JDict pairs => Ret (dict_get key pairs)
  | _ => Raise AttributeError
  end.

End Json.

Module JSONTextParser.

(** [level in {"INFO", "WARNING", "ERROR"}]: the value is hashed
    first, which a list or a dict refuses. *)
Definition in_LEVELS (level : Json.value) : res bool :=
  match level with
  | Json.JList _ | Json.JDict _ => Raise TypeError
  | Json.JStr s => Ret (bool_decide (s ∈ LEVELS))
  | _ => Ret false
  end.

Definition parse_level (line : str) : res level :=
  (let* obj := Json.loads line in
   let* level := Json.get obj (lit "level") in
   let* found := in_LEVELS level in
   match found, level with
   | true, Json.JStr s => Ret (Some s)
   | _, _ => Ret None
   end)%res.

End JSONTextParser.

(* ------------------------------------------------------------------ *)
(** ** The standard library's [str.encode] and [hashlib.sha256] *)

Module Hashlib.

Local Open Scope N_scope.

(** One code point in UTF-8. A surrogate has no encoding. *)
Definition encode_char (c : N) : res (list N) :=
  if c <? 0x80 then Ret [c]
  else if c <? 0x800 then
    Ret [N.lor 0xC0 (N.shiftr c 6); N.lor 0x80 (N.land c 0x3F)]
  else if c <? 0x10000 then
    if (0xD800 <=? c) && (c <=? 0xDFFF) then Raise UnicodeEncodeError
    else Ret [N.lor 0xE0 (N.shiftr c 12);
              N.lor 0x80 (N.land (N.shiftr c 6) 0x3F);
              N.lor 0x80 (N.land c 0x3F)]
  else
    Ret [N.lor 0xF0 (N.shiftr c 18);
         N.lor 0x80 (N.land (N.shiftr c 12) 0x3F);
         N.lor 0x80 (N.land (N.shiftr c 6) 0x3F);
         N.lor 0x80 (N.land c 0x3F)].

(** [s.encode("utf-8")] *)
Fixpoint encode (s : str) : res (list N) :=
  match s with
  | [] => Ret []
  | c :: s' =>
      match encode_char c, encode s' with
      | Ret b, Ret bs => Ret (b ++ bs)
      | Raise e, _ | _, Raise e => Raise e
      end
  end.

(** SHA-256 (FIPS 180-4) on 32-bit words held in [N]. *)
Definition w32 (x : N) : N := N.land x 0xFFFFFFFF.
Definition add32 (x y : N) : N := w32 (x + y).
Definition rotr (n x : N) : N := N.lor (N.shiftr x n) (w32 (N.shiftl x (32 - n))).
Definition Ch (x y z : N) : N :=
  N.lxor (N.land x y) (N.land (N.lxor x 0xFFFFFFFF) z).
Definition Maj (x y z : N) : N :=
  N.lxor (N.land x y) (N.lxor (N.land x z) (N.land y z)).
Definition Sigma0 (x : N) : N := N.lxor (rotr 2 x) (N.lxor (rotr 13 x) (rotr 22 x)).
Definition Sigma1 (x : N) : N := N.lxor (rotr 6 x) (N.lxor (rotr 11 x) (rotr 25 x)).
Definition sigma0 (x : N) : N := N.lxor (rotr 7 x) (N.lxor (rotr 18 x) (N.shiftr x 3)).
Definition sigma1 (x : N) : N := N.lxor (rotr 17 x) (N.lxor (rotr 19 x) (N.shiftr x 10)).

(** The constants are read off the first primes: the first 32 bits of
    the fractional part of the cube roots of the first 64 of them, and
    of the square roots of the first 8. *)
Definition is_prime (n : N) : bool :=
  forallb (fun d => negb (n mod d =? 0)) (map N.of_nat (seq 2 (N.to_nat n - 2))).

Definition primes : list N := filter is_prime (map N.of_nat (seq 2 310)).

(** The integer cube root, one bit at a time from bit [bits] down. *)
Fixpoint root3 (bits : nat) (n acc : N) : N :=
  match bits with
  | O => acc
  | S b =>
      let c := acc + N.shiftl 1 (N.of_nat b) in
      if c * c * c <=? n then root3 b n c else root3 b n acc
  end.

Definition K : list N :=
  Eval vm_compute in map (fun p => w32 (root3 40 (N.shiftl p 96) 0)) primes.

Definition H0 : list N :=
  Eval vm_compute in map (fun p => w32 (N.sqrt (N.shiftl p 64))) (firstn 8 primes).

(** The message, a one bit, zeros up to 56 modulo 64, and the length
    in bits on eight bytes. *)
Definition be_bytes (n : nat) (x : N) : list N :=
  map (fun i => N.land (N.shiftr x (8 * N.of_nat i)) 0xFF) (rev (seq 0 n)).

Definition pad (msg : list N) : list N :=
  let len := N.of_nat (length msg) in
  let zeros := N.to_nat ((64 + 55 - len mod 64) mod 64) in
  msg ++ [0x80] ++ repeat 0 zeros ++ be_bytes 8 (8 * len).

Fixpoint be_words (n : nat) (bytes : list N) : list N :=
  match n, bytes with
  | S n', a :: b :: c :: d :: rest =>
      N.lor (N.shiftl a 24) (N.lor (N.shiftl b 16) (N.lor (N.shiftl c 8) d))
      :: be_words n' rest
  | _, _ => []
  end.

(** The message schedule; [w] holds the words so far, latest first. *)
Fixpoint schedule (n : nat) (w : list N) : list N :=
  match n with
  | O => rev w
  | S n' =>
      let new := add32 (add32 (sigma1 (nth 1 w 0)) (nth 6 w 0))
                       (add32 (sigma0 (nth 14 w 0)) (nth 15 w 0)) in
      schedule n' (new :: w)
  end.

Definition round (st : list N) (kw : N * N) : list N :=
  match st with
  | [a; b; c; d; e; f; g; h] =>
      let t1 := add32 (add32 (add32 h (Sigma1 e)) (add32 (Ch e f g) kw.1)) kw.2 in
      let t2 := add32 (Sigma0 a) (Maj a b c) in
      [add32 t1 t2; a; b; c; add32 d t1; e; f; g]
  | _ => st
  end.

Definition compress (h : list N) (block : list N) : list N :=
  let w := schedule 48 (rev (be_words 16 block)) in
  let st := fold_left round (combine K w) h in
  map (fun p => add32 p.1 p.2) (combine h st).

Fixpoint blocks (n : nat) (bytes : list N) : list (list N) :=
  match n with
  | O => []
  | S n' => firstn 64 bytes :: blocks n' (skipn 64 bytes)
  end.

Definition sha256 (msg : list N) : list N :=
  let padded := pad msg in
  fold_left compress (blocks (length padded / 64) padded) H0.

Definition hexdigit (x : N) : N := if x <? 10 then 0x30 + x else 0x61 + (x - 10).

(** [sha256(msg).hexdigest()]: 64 lower-case hexadecimal digits. *)
Definition hexdigest (msg : list N) : str :=
  flat_map (fun w => map (fun i => hexdigit (N.land (N.shiftr w (4 * N.of_nat i)) 0xF))
                         (rev (seq 0 8)))
           (sha256 msg).

(** [sha256(msg).digest()]: the eight words, four bytes each. *)
Definition digest (msg : list N) : list N := flat_map (be_bytes 4) (sha256 msg).

(** [bytes.hex()]: two digits for each byte, the high half first. *)
Definition hex (bytes : list N) : str :=
  flat_map (fun b => [hexdigit (N.shiftr b 4); hexdigit (N.land b 0xF)]) bytes.

End Hashlib.

(* ------------------------------------------------------------------ *)
(** ** Calls that change a state

    A call on a shared object takes the state of that object and gives
    it back, changed or not, together with its result. A call that
    raises keeps the changes made before the exception. *)

Module St.

Definition M (S A : Type) : Type := S -> res A * S.

Definition ret {S A} (a : A) : M S A := fun s => (Ret a, s).
Definition raise {S A} (e : exn) : M S A := fun s => (Raise e, s).
Definition lift {S A} (r : res A) : M S A := fun s => (r, s).

Definition bind {S A B} (m : M S A) (k : A -> M S B) : M S B :=
  fun s => match m s with
           | (Ret a, s') => k a s'
           | (Raise e, s') => (Raise e, s')
           end.

Declare Scope st_scope.
Delimit Scope st_scope with st.
Notation "'let*' x := e 'in' k" := (bind e (fun x => k))
  (at level 10, x pattern, e at level 100, k at level 200) : st_scope.

End St.

Import St.

(* ------------------------------------------------------------------ *)
(** ** The Redis server and the redis-py client

    The store behind [RedisCache]: string values with an optional
    deadline, and a clock in milliseconds. A key whose deadline has
    passed is no longer seen by any command. A value written by INCR is
    held as an integer, as the server does. *)

Module Redis.

Inductive robj :=
| RInt (n : Z)
| RRaw (s : str).

Record entry := Entry { value : robj; expire_at : option Z }.

Record server := Server { db : gmap str entry; clock : Z }.

Definition empty : server := Server ∅ 0.

(** Time passing between two commands. *)
Definition elapse (ms : Z) (srv : server) : server :=
  Server (db srv) (clock srv + ms).

Definition lookup (key : str) (srv : server) : option entry :=
  match db srv !! key with
  | Some e =>
      match expire_at e with
      | Some t => if t <=? clock srv then None else Some e
      | None => Some e
      end
  | None => None
  end.

Definition store (key : str) (e : entry) (srv : server) : server :=
  Server (<[key := e]> (db srv)) (clock srv).

Definition LLONG_MAX : Z := 2 ^ 63 - 1.
Definition LLONG_MIN : Z := - 2 ^ 63.

(** An integer as the server prints it. *)
Fixpoint uint_str (u : Decimal.uint) : str :=
  match u with
  | Decimal.Nil => []
  | Decimal.D0 u => 0x30%N :: uint_str u
  | Decimal.D1 u => 0x31%N :: uint_str u
  | Decimal.D2 u => 0x32%N :: uint_str u
  | Decimal.D3 u => 0x33%N :: uint_str u
  | Decimal.D4 u => 0x34%N :: uint_str u
  | Decimal.D5 u => 0x35%N :: uint_str u
  | Decimal.D6 u => 0x36%N :: uint_str u
  | Decimal.D7 u => 0x37%N :: uint_str u
  | Decimal.D8 u => 0x38%N :: uint_str u
  | Decimal.D9 u => 0x39%N :: uint_str u
  end.

Definition ll2string (n : Z) : str :=
  match Z.to_int n with
  | Decimal.Pos u => uint_str u
  | Decimal.Neg u => 0x2D%N :: uint_str u
  end.

(** A string as the server reads an integer: ["0"], or an optional
    minus sign, a digit 1-9 and digits, within 64 bits. *)
Definition string2ll (s : str) : option Z :=
  let '(neg, d) := match s with
                   | 0x2D%N :: d => (true, d)
                   | _ => (false, s)
                   end in
  match d with
  | [] => None
  | [0x30%N] => if neg then None else Some 0
  | c :: _ =>
      if (0x31 <=? c)%N && forallb Json.isdigit d then
        let v := if neg then - Json.parse_digits d else Json.parse_digits d in
        if (LLONG_MIN <=? v) && (v <=? LLONG_MAX) then Some v else None
      else None
  end.

Definition repr (o : robj) : str :=
  match o with RInt n => ll2string n | RRaw s => s end.

Definition to_ll (o : robj) : option Z :=
  match o with RInt n => Some n | RRaw s => string2ll s end.

(** GET key *)
Definition GET (key : str) : M server (option str) :=
  fun srv => (Ret (repr <$> (value <$> lookup key srv)), srv).

(** The seconds of a command are turned into milliseconds, which have
    to fit in 64 bits ([/] of C rounds towards zero). *)
Definition ms_fit (seconds : Z) : bool :=
  (LLONG_MIN ÷ 1000 <=? seconds) && (seconds <=? LLONG_MAX ÷ 1000).

(** SETEX key seconds value: "invalid expire time" unless the seconds
    are positive and their milliseconds fit; nothing is stored then.
    The deadline is the clock plus these milliseconds; that this sum
    fits as well is not checked here, the clock being wall time in
    milliseconds, far below 2^63. *)
Definition SETEX (key : str) (seconds : Z) (v : str) : M server unit :=
  fun srv =>
    if (seconds <=? 0) || negb (ms_fit seconds) then (Raise ResponseError, srv)
    else (Ret tt, store key (Entry (RRaw v) (Some (clock srv + 1000 * seconds))) srv).

(** INCR key *)
Definition INCR (key : str) : M server Z :=
  fun srv =>
    match lookup key srv with
    | None => (Ret 1, store key (Entry (RInt 1) None) srv)
    | Some e =>
        match to_ll (value e) with
        | Some n =>
            if LLONG_MAX <=? n then (Raise ResponseError, srv)
            else (Ret (n + 1), store key (Entry (RInt (n + 1)) (expire_at e)) srv)
        | None => (Raise ResponseError, srv)
        end
    end.

(** Seconds whose milliseconds fit in 64 bits, and whose deadline,
    counted from the time [now], fits as well. *)
Definition deadline_fits (now seconds : Z) : bool :=
  ms_fit seconds && (now + 1000 * seconds <=? LLONG_MAX).

(** EXPIRE key seconds: "invalid expire time", or "value is not an
    integer or out of range", for seconds it does not accept, and the
    key keeps what it had. With [seconds <= 0] the deadline has passed
    at once, which is how the key is deleted. *)
Definition EXPIRE (key : str) (seconds : Z) : M server bool :=
  fun srv =>
    if negb (deadline_fits (clock srv) seconds) then (Raise ResponseError, srv)
    else
      match lookup key srv with
      | None => (Ret false, srv)
      | Some e => (Ret true, store key (Entry (value e) (Some (clock srv + 1000 * seconds))) srv)
      end.

(** The client, with [decode_responses=True]. *)
Module client.

Definition get (key : str) : M server (option str) := GET key.

(** The client encodes a value before sending it and accepts bytes,
    strings and numbers: [None] is a [DataError]. *)
Definition setex (key : str) (time : Z) (v : option str) : M server unit :=
  match v with
  | Some s => SETEX key time s
  | None => raise DataError
  end.

Definition incr (key : str) : M server Z := INCR key.

Definition expire (key : str) (time : Z) : M server bool := EXPIRE key time.

End client.

(** The count held at [key]: 0 for a key that is not there. *)
Definition counter (key : str) (srv : server) : option Z :=
  match lookup key srv with
  | None => Some 0
  | Some e => to_ll (value e)
  end.

(** The deadline of a key that is there. *)
Definition deadline (key : str) (srv : server) : option Z :=
  match lookup key srv with
  | None => None
  | Some e => expire_at e
  end.

End Redis.

(* ------------------------------------------------------------------ *)
(** ** cache.py *)

Module BaseCache.

(** The interface: three methods on a backend of state [S]. *)
Record t (S : Type) := Build {
  get : str -> M S (option str);
  set : str -> option str -> Z -> M S unit;
  allow : str -> Z -> Z -> M S bool;
}.
Arguments Build {S}.
Arguments get {S}.
Arguments set {S}.
Arguments allow {S}.

End BaseCache.

Module NoopCache.

Section Noop.
Context {S : Type}.

Definition get (key : str) : M S (option str) := ret None.

Definition set (key : str) (value : option str) (ttl_seconds : Z) : M S unit :=
  ret tt.

Definition allow (key : str) (limit window_seconds : Z) : M S bool := ret true.

Definition cache : BaseCache.t S := BaseCache.Build get set allow.
End Noop.

End NoopCache.

Module RedisCache.

Local Open Scope st_scope.

Definition get (key : str) : M Redis.server (option str) :=
  Redis.client.get key.

Definition set (key : str) (value : option str) (ttl_seconds : Z)
  : M Redis.server unit :=
  Redis.client.setex key ttl_seconds value.

Definition allow (key : str) (limit window_seconds : Z) : M Redis.server bool :=
  let* current := Redis.client.incr key in
  let* _ := (if current =? 1
             then let* _ := Redis.client.expire key window_seconds in ret tt
             else ret tt) in
  ret (current <=? limit).

Definition cache : BaseCache.t Redis.server := BaseCache.Build get set allow.

End RedisCache.

Definition line_cache_key (line : str) : res str :=
  (let* bytes := Hashlib.encode line in
   Ret (lit "loglevel:" ++ Hashlib.hexdigest bytes))%res.

(* ------------------------------------------------------------------ *)
(** ** core.py: the analyser *)

(** What an analyser calls on its two collaborators, in call order. *)
Inductive event :=
| ParseLevel (line : str)                          (* self.parser.parse_level(line) *)
| CacheGet (key : str)                             (* self.cache.get(key) *)
| CacheSet (key : str) (value : level) (ttl : Z).  (* self.cache.set(key, level, ttl) *)

Definition is_parse (e : event) : bool :=
  match e with ParseLevel _ => true | _ => false end.

Definition is_cache (e : event) : bool :=
  match e with ParseLevel _ => false | _ => true end.

Module LogAnalyser.

Local Open Scope st_scope.

Section Analyser.
Context {S : Type}.

(** The fields set once by [__init__]. *)
Record t := Build {
  parser : BaseParser;
  cache : option (BaseCache.t S);
  cache_ttl : Z;
}.

(** What the calls change: the backend of the cache, which outlives
    the analyser, the tally [self.counts], and the calls made. *)
Record state := State {
  backend : S;
  counts : gmap level nat;
  trace : list event;
}.

(** [LogAnalyser(parser, cache, cache_ttl)] on a backend. *)
Definition init (b : S) : state := State b ∅ [].

Definition log (e : event) (st : state) : state :=
  State (backend st) (counts st) (trace st ++ [e]).

Definition on_backend {A} (m : M S A) : M state A :=
  fun st => let '(r, b) := m (backend st) in
            (r, State b (counts st) (trace st)).

Definition call_parse (self : t) (line : str) : M state level :=
  fun st => (parser self line, log (ParseLevel line) st).

Definition call_get (c : BaseCache.t S) (key : str) : M state (option str) :=
  fun st => on_backend (BaseCache.get c key) (log (CacheGet key) st).

Definition call_set (c : BaseCache.t S) (key : str) (value : level) (ttl : Z)
  : M state unit :=
  fun st => on_backend (BaseCache.set c key value ttl) (log (CacheSet key value ttl) st).

(** Lines 43-48: parse and, with a key, write back. *)
Definition parse_and_store (self : t) (key : option str) (line : str) : M state level :=
  let* level := call_parse self line in
  let* _ := match key, cache self with
            | Some k, Some c => call_set c k level (cache_ttl self)
            | Some k, None => raise AttributeError
            | None, _ => ret tt
            end in
  ret level.

Definition process_line (self : t) (line : str) : M state level :=
  match cache self with
  | Some c =>
      let* key := lift (line_cache_key line) in
      let* cached := call_get c key in
      match cached with
      | Some v => ret (Some v)
      | None => parse_and_store self (Some key) line
      end
  | None => parse_and_store self None line
  end.

(** [self.counts[level] += 1] on a [defaultdict(int)]. *)
Definition count (level : level) : M state unit :=
  fun st => (Ret tt,
             State (backend st)
                   (<[level := (default 0 (counts st !! level) + 1)%nat]> (counts st))
                   (trace st)).

Fixpoint for_lines (self : t) (lines : list str) : M state unit :=
  match lines with
  | [] => ret tt
  | line :: rest =>
      let* level := process_line self line in
      let* _ := count level in
      for_lines self rest
  end.

Definition process_lines (self : t) (lines : list str) : M state (gmap level nat) :=
  let* _ := for_lines self lines in
  fun st => (Ret (counts st), st).

End Analyser.

Arguments t : clear implicits.
Arguments state : clear implicits.

End LogAnalyser.

(* ------------------------------------------------------------------ *)
(** ** app.py: the tally of a batch

    [batch] and [batch_threads] collect one level per line, in the order
    of the lines, and count them in a fresh dict. [batch] below is the
    endpoint from the construction of the analyser on: the loop on
    [cache.allow] before it only delays the request and leaves the
    backend in some state, and the properties hold from any state.
    [levels_of] runs the calls one after the other, which is one of the
    schedules that [gather] and [pool.map] allow; both return the
    results in the order of the lines. A call that raises ends the
    request; the endpoints have started the other calls all the same,
    and it is the exception raised first in time that the caller sees:
    [levels_of] stops at the first call that raises in the order of the
    lines, and is used below for the requests that return. *)

Module App.

Local Open Scope st_scope.

(** [counts[level] = counts.get(level, 0) + 1] for each level. *)
Definition count_levels (levels : list level) : gmap level nat :=
  fold_left (fun counts level => <[level := (default 0 (counts !! level) + 1)%nat]> counts)
            levels ∅.

Fixpoint levels_of {S} (analyser : LogAnalyser.t S) (lines : list str)
  : M (LogAnalyser.state S) (list level) :=
  match lines with
  | [] => ret []
  | line :: rest =>
      let* level := LogAnalyser.process_line analyser line in
      let* levels := levels_of analyser rest in
      ret (level :: levels)
  end.

(** [parser = PlainTextParser() if req.mode == "plain" else JSONTextParser()] *)
Definition parser_of (mode : str) : BaseParser :=
  if bool_decide (mode = lit "plain") then PlainTextParser.parse_level
  else JSONTextParser.parse_level.

Definition batch {S} (cache : BaseCache.t S) (mode : str) (lines : list str)
  : M (LogAnalyser.state S) (gmap level nat) :=
  let analyser := LogAnalyser.Build (parser_of mode) (Some cache) 60 in
  let* levels := levels_of analyser lines in
  ret (count_levels levels).

(** [parse]: one line through a new analyser. *)
Definition parse {S} (cache : BaseCache.t S) (mode : str) (line : str)
  : M (LogAnalyser.state S) level :=
  let analyser := LogAnalyser.Build (parser_of mode) (Some cache) 60 in
  LogAnalyser.process_line analyser line.

Definition RATE_LIMIT : Z := 100.
Definition RATE_WINDOW : Z := 10.
Definition RATE_KEY : str := lit "ratelimit:log_api:/batch".
Definition RATE_KEY_THREADS : str := lit "ratelimit:log_api:/batch_threads".
Definition RATE_KEY_CPU : str := lit "ratelimit:log_api:/cpu_processes".

(** [while not cache.allow(key, limit, window): sleep(0.05)], the loop
    at the head of the three batch endpoints. What a sleep does to the
    backend is to let time pass: [pass ms] is the backend [ms]
    milliseconds later. [naps] holds how long each sleep took, and the
    loop is followed for as many sleeps as [naps] has; the result tells
    whether the call was allowed by then. *)
Fixpoint wait_allowed {S} (cache : BaseCache.t S) (pass : Z -> S -> S)
         (key : str) (limit window : Z) (naps : list Z) : M S bool :=
  let* ok := BaseCache.allow cache key limit window in
  if ok : bool then ret true
  else match naps with
       | [] => ret false
       | ms :: naps' =>
           fun s => wait_allowed cache pass key limit window naps' (pass ms s)
       end.

(** [cpu_heavy(line, rounds)] *)
Definition cpu_heavy (line : str) (rounds : Z) : res str :=
  (let* data := Hashlib.encode line in
   Ret (Hashlib.hex (Nat.iter (Z.to_nat rounds)
                              (fun h => Hashlib.digest (data ++ h)) [])))%res.

(** [list(pool.map(f, lines))]: the results in the order of the lines,
    or the exception of a call that raised. The pool hands on the one
    raised first in time; here it is the first in the order of the
    lines, which is the same exception for [cpu_heavy], whose calls
    have one exception only. *)
Fixpoint pool_map {A B} (f : A -> res B) (l : list A) : res (list B) :=
  match l with
  | [] => Ret []
  | x :: l' =>
      (let* y := f x in
       let* ys := pool_map f l' in
       Ret (y :: ys))%res
  end.

(** [cpu_processes], after its loop on [cache.allow]: the fields
    ["hashes"] and ["total"] of the response. [cpu_heavy] runs with its
    default number of rounds. *)
Definition cpu_processes (lines : list str) : res (list str * nat) :=
  (let* results := pool_map (fun line => cpu_heavy line 20000) lines in
   Ret (firstn 3 results, length results))%res.

End App.

(** The sum of the counts of a tally. *)
Definition tally_sum (counts : gmap level nat) : nat :=
  map_fold (fun _ n acc => (n + acc)%nat) 0%nat counts.

(* ------------------------------------------------------------------ *)
(** ** The statements of the specification that the code does not meet

    Each is written as the specification has it, to be evaluated on the
    code. *)

Module Spec.

(** A line with fewer than three tokens yields UNKNOWN. *)
Definition short_line_yields_unknown (line : str) : Prop :=
  (length (split line) < 3)%nat ->
  PlainTextParser.parse_level line = Ret UNKNOWN.

(** The record that a structured line carries, if it is one. *)
Definition record_of (line : str) : option (list (str * Json.value)) :=
  match Json.loads line with
  | Ret (Json.JDict pairs) => Some pairs
  | _ => None
  end.

Definition recognized (v : Json.value) : bool :=
  match v with
  | Json.JStr s => bool_decide (s ∈ LEVELS)
  | _ => false
  end.

(** A line that is no record, or whose record has no ["level"] or an
    unrecognized value there, yields UNKNOWN. *)
Definition malformed_record_yields_unknown (line : str) : Prop :=
  match record_of line with
  | None => True
  | Some pairs =>
      lit "level" ∉ pairs.*1
      \/ recognized (Json.dict_get (lit "level") pairs) = false
  end ->
  JSONTextParser.parse_level line = Ret UNKNOWN.

(** Two calls on the same line through the same cache: both return
    the same level, and the second makes no call to the parser. *)
Definition second_call_is_hit {S} (self : LogAnalyser.t S) (line : str)
           (st : LogAnalyser.state S) : Prop :=
  exists lvl st1 st2,
    LogAnalyser.process_line self line st = (Ret lvl, st1)
    /\ LogAnalyser.process_line self line st1 = (Ret lvl, st2)
    /\ filter is_parse (LogAnalyser.trace st2) = filter is_parse (LogAnalyser.trace st1).

(** A call of [process_line] adds one to the tally of the level it
    returns. *)
Definition process_line_updates_tally {S} (self : LogAnalyser.t S) (line : str)
           (st : LogAnalyser.state S) : Prop :=
  forall lvl st',
    LogAnalyser.process_line self line st = (Ret lvl, st') ->
    LogAnalyser.counts st' !! lvl
    = Some (default 0 (LogAnalyser.counts st !! lvl) + 1)%nat.

(** [allow], whatever the window: the counter of the key goes from [n]
    to [n + 1], a count of 1 arms an expiry of the window, and the
    answer is whether the count is within the limit. *)
Definition allow_arms_any_window (key : str) (limit window : Z)
           (srv : Redis.server) : Prop :=
  forall n,
    Redis.counter key srv = Some n ->
    n < Redis.LLONG_MAX ->
    let '(r, srv') := RedisCache.allow key limit window srv in
    r = Ret (n + 1 <=? limit)
    /\ Redis.db srv' !! key
       = Some (Redis.Entry (Redis.RInt (n + 1))
                 (if n + 1 =? 1 then Some (Redis.clock srv + 1000 * window)
                  else Redis.deadline key srv)).

(** On a miss, whatever the line: the parser is called, its level is
    written back with the ttl of the analyser, and returned. *)
Definition miss_returns_level {S} (self : LogAnalyser.t S) (line : str)
           (st : LogAnalyser.state S) : Prop :=
  forall c key b,
    LogAnalyser.cache self = Some c ->
    line_cache_key line = Ret key ->
    BaseCache.get c key (LogAnalyser.backend st) = (Ret None, b) ->
    exists lvl st',
      LogAnalyser.process_line self line st = (Ret lvl, st')
      /\ LogAnalyser.trace st'
         = LogAnalyser.trace st
           ++ [CacheGet key; ParseLevel line;
               CacheSet key lvl (LogAnalyser.cache_ttl self)].

End Spec.

(** Calls on a cache, for a history of any length. *)
Inductive call :=
| Get (key : str)
| Set_ (key : str) (value : option str) (ttl : Z)
| Allow (key : str) (limit window : Z).

Definition run_call {S} (c : BaseCache.t S) (x : call) (s : S) : S :=
  match x with
  | Get key => (BaseCache.get c key s).2
  | Set_ key value ttl => (BaseCache.set c key value ttl s).2
  | Allow key limit window => (BaseCache.allow c key limit window s).2
  end.

Definition run_calls {S} (c : BaseCache.t S) (calls : list call) (s : S) : S :=
  fold_left (fun s x => run_call c x s) calls s.

(** [n] calls of [m] in a row, and their results. *)
Fixpoint repeat_call {S A} (n : nat) (m : M S A) : M S (list A) :=
  match n with
  | O => ret []
  | Datatypes.S n' =>
      St.bind m (fun a => St.bind (repeat_call n' m) (fun l => ret (a :: l)))
  end.

(** The analysers of the examples. *)
Definition plain_noop : LogAnalyser.t unit :=
  LogAnalyser.Build PlainTextParser.parse_level (Some NoopCache.cache) 60.

Definition plain_redis : LogAnalyser.t Redis.server :=
  LogAnalyser.Build PlainTextParser.parse_level (Some RedisCache.cache) 60.

(* ================================================================== *)
(** * Properties *)

(** ** The model on concrete inputs *)

Example plain_info :
  PlainTextParser.parse_level (lit "2024-01-01 svcA INFO start") = Ret (Some INFO).
Proof. vm_compute. reflexivity. Qed.

Example plain_garbage :
  PlainTextParser.parse_level (lit "garbage") = Raise IndexError.
Proof. vm_compute. reflexivity. Qed.

Example plain_debug :
  PlainTextParser.parse_level (lit "2024-01-01 svcA DEBUG start") = Ret None.
Proof. vm_compute. reflexivity. Qed.

Example json_error :
  JSONTextParser.parse_level (qlit "{'ts': 1.5e3, 'level': 'ERROR', 'tags': [1, true, null]}")
  = Ret (Some ERROR).
Proof. vm_compute. reflexivity. Qed.

Example json_garbage : JSONTextParser.parse_level (lit "garbage") = Raise JSONDecodeError.
Proof. vm_compute. reflexivity. Qed.

Example sha256_abc :
  Hashlib.hexdigest (lit "abc")
  = lit "ba7816bf8f01cfea414140de5dae2223b00361a396177a9cb410ff61f20015ad".
Proof. vm_compute. reflexivity. Qed.

Example sha256_empty :
  Hashlib.hexdigest []
  = lit "e3b0c44298fc1c149afbf4c8996fb92427ae41e4649b934ca495991b7852b855".
Proof. vm_compute. reflexivity. Qed.

Example sha256_two_blocks :
  Hashlib.hexdigest (lit "abcdbcdecdefdefgefghfghighijhijkijkljklmklmnlmnomnopnopq")
  = lit "248d6a61d20638b8e5c026930c3e6039a33ce45964ff2167f6ecedd419db06c1".
Proof. vm_compute. reflexivity. Qed.

(** ** Splitting a line *)

Lemma split_from_lstrip (s : str) : split_from [] (lstrip s) = split_from [] s.
Proof.
  induction s as [|c s IH]; simpl; [reflexivity|].
  destruct (isspace c) eqn:E; [exact IH|].
  simpl. rewrite E. reflexivity.
Qed.

Lemma split_from_snoc_space (w s : str) (c : N) :
  isspace c = true -> split_from w (s ++ [c]) = split_from w s.
Proof.
  intros Hc. revert w.
  induction s as [|d s IH]; intros w; simpl.
  - rewrite Hc. destruct w; reflexivity.
  - destruct (isspace d); [destruct w|]; rewrite IH; reflexivity.
Qed.

Lemma split_from_rstrip (w s : str) : split_from w (rstrip s) = split_from w s.
Proof.
  unfold rstrip.
  induction s as [|c s IH] using rev_ind; [reflexivity|].
  rewrite rev_unit. simpl.
  destruct (isspace c) eqn:E.
  - rewrite IH. symmetry. apply split_from_snoc_space, E.
  - simpl. rewrite rev_involutive. reflexivity.
Qed.

(** [strip] before [split] changes nothing: [split] drops the white
    space at both ends itself. *)
Lemma split_strip (s : str) : split (strip s) = split s.
Proof.
  unfold split, strip. rewrite split_from_rstrip. apply split_from_lstrip.
Qed.

(** A word of [split] is not empty and holds no white space. *)
Lemma split_from_words (w s : str) :
  forallb (fun c => negb (isspace c)) w = true ->
  Forall (fun t => t <> [] /\ forallb (fun c => negb (isspace c)) t = true)
         (split_from w s).
Proof.
  revert w. induction s as [|c s IH]; intros w Hw; simpl.
  - destruct w as [|d w]; constructor; [|constructor].
    split; [intros E; apply (f_equal (@length N)) in E;
            rewrite length_rev in E; discriminate|].
    rewrite forallb_forall in *. intros x Hx. apply Hw, in_rev, Hx.
  - destruct (isspace c) eqn:E.
    + destruct w as [|d w]; [apply IH; reflexivity|].
      constructor; [|apply IH; reflexivity].
      split; [intros E'; apply (f_equal (@length N)) in E';
              rewrite length_rev in E'; discriminate|].
      rewrite forallb_forall in *. intros x Hx. apply Hw, in_rev, Hx.
    + apply IH. simpl. rewrite E. exact Hw.
Qed.

Lemma split_words (s : str) :
  Forall (fun t => t <> [] /\ forallb (fun c => negb (isspace c)) t = true) (split s).
Proof. apply split_from_words. reflexivity. Qed.

(** ** The plain-text parser *)

Lemma plain_parse_level_unfold (line : str) :
  PlainTextParser.parse_level line
  = match split line !! 2%nat with
    | None => Raise IndexError
    | Some t => if bool_decide (t ∈ LEVELS) then Ret (Some t) else Ret None
    end.
Proof. unfold PlainTextParser.parse_level. rewrite split_strip. reflexivity. Qed.

(** C1, as the code has it: a line with fewer than three
    white-space-separated tokens makes [PlainTextParser.parse_level]
    raise [IndexError] to its caller; no level is returned. *)
Theorem short_line_raises (line : str) :
  (length (split line) < 3)%nat ->
  PlainTextParser.parse_level line = Raise IndexError.
Proof.
  intros Hlen. rewrite plain_parse_level_unfold.
  rewrite (lookup_ge_None_2 (split line) 2); [reflexivity|lia].
Qed.

Lemma short_line_raises_witness :
  (length (split (lit "garbage")) < 3)%nat
  /\ PlainTextParser.parse_level (lit "garbage") = Raise IndexError.
Proof.
  split; [vm_compute; lia|].
  apply (short_line_raises (lit "garbage")). vm_compute. lia.
Defined.

(** C1, as stated, fails on the one-token line ["garbage"]. *)
Lemma short_line_not_unknown : ~ Spec.short_line_yields_unknown (lit "garbage").
Proof.
  intros H.
  assert (Hlen : (length (split (lit "garbage")) < 3)%nat) by (vm_compute; lia).
  specialize (H Hlen). rewrite plain_garbage in H. discriminate.
Qed.

(** C7: on a line with at least three white-space-separated tokens,
    [PlainTextParser.parse_level] returns the third token when it is
    one of INFO, WARNING, ERROR, and UNKNOWN when it is not. *)
Theorem third_token_decides (line : str) :
  (3 <= length (split line))%nat ->
  exists third,
    split line !! 2%nat = Some third
    /\ (third ∈ LEVELS -> PlainTextParser.parse_level line = Ret (Some third))
    /\ (third ∉ LEVELS -> PlainTextParser.parse_level line = Ret UNKNOWN).
Proof.
  intros Hlen.
  destruct (lookup_lt_is_Some_2 (split line) 2 ltac:(lia)) as [third Hthird].
  exists third. rewrite plain_parse_level_unfold, Hthird.
  split; [reflexivity|].
  split; intros Hin.
  - rewrite bool_decide_eq_true_2; [reflexivity|exact Hin].
  - rewrite bool_decide_eq_false_2; [reflexivity|exact Hin].
Qed.

Lemma third_token_decides_witness :
  exists third,
    split (lit "2024-01-01 svcA ERROR fail") !! 2%nat = Some third
    /\ (third ∈ LEVELS ->
        PlainTextParser.parse_level (lit "2024-01-01 svcA ERROR fail") = Ret (Some third))
    /\ (third ∉ LEVELS ->
        PlainTextParser.parse_level (lit "2024-01-01 svcA ERROR fail") = Ret UNKNOWN).
Proof.
  apply (third_token_decides (lit "2024-01-01 svcA ERROR fail")).
  vm_compute. lia.
Defined.

Example third_token_error :
  split (lit "2024-01-01 svcA ERROR fail") !! 2%nat = Some ERROR
  /\ PlainTextParser.parse_level (lit "2024-01-01 svcA ERROR fail") = Ret (Some ERROR).
Proof. split; vm_compute; reflexivity. Qed.

(** ** The structured parser *)

Lemma dict_get_missing (key : str) (pairs : list (str * Json.value)) :
  key ∉ pairs.*1 -> Json.dict_get key pairs = Json.JNone.
Proof.
  induction pairs as [|[k v] pairs IH]; simpl; intros Hnot; [reflexivity|].
  rewrite not_elem_of_cons in Hnot. destruct Hnot as [Hne Hnot].
  rewrite bool_decide_eq_false_2 by congruence. simpl. apply IH, Hnot.
Qed.

(** The last pair with the key is the one that [get] sees. *)
Lemma dict_get_last (key : str) (v : Json.value) (pairs : list (str * Json.value)) :
  Json.dict_get key (pairs ++ [(key, v)]) = v.
Proof.
  induction pairs as [|[k w] pairs IH]; simpl.
  - rewrite bool_decide_eq_true_2 by reflexivity. reflexivity.
  - rewrite existsb_app. simpl.
    rewrite (bool_decide_eq_true_2 (key = key)) by reflexivity.
    rewrite orb_true_r, andb_false_r. exact IH.
Qed.

(** C2, as the code has it: when [json.loads] decodes the line to an
    object that has no key ["level"], or whose value there is null, a
    boolean, a number, or a string other than the three names,
    [JSONTextParser.parse_level] returns UNKNOWN. When [json.loads]
    raises, as it does on a line that is not well-formed, [parse_level]
    raises the same exception to its caller. *)
Theorem structured_record_level (line : str) :
  (forall e, Json.loads line = Raise e -> JSONTextParser.parse_level line = Raise e)
  /\ (forall pairs, Json.loads line = Ret (Json.JDict pairs) ->
      (lit "level" ∉ pairs.*1 -> JSONTextParser.parse_level line = Ret UNKNOWN)
      /\ (forall v, Json.dict_get (lit "level") pairs = v ->
          (forall l, v <> Json.JList l) -> (forall d, v <> Json.JDict d) ->
          Spec.recognized v = false ->
          JSONTextParser.parse_level line = Ret UNKNOWN)).
Proof.
  unfold JSONTextParser.parse_level. split.
  - intros e He. rewrite He. reflexivity.
  - intros pairs Hp. rewrite Hp. simpl. split.
    + intros Hnot. rewrite (dict_get_missing _ _ Hnot). reflexivity.
    + intros v <- Hl Hd Hrec.
      destruct (Json.dict_get (lit "level") pairs) as [|b|n|x|s|l|d];
        try reflexivity.
      * unfold Spec.recognized in Hrec.
        unfold JSONTextParser.in_LEVELS, Py.bind. rewrite Hrec. reflexivity.
      * destruct (Hl l). reflexivity.
      * destruct (Hd d). reflexivity.
Qed.

Lemma structured_record_level_witness :
  JSONTextParser.parse_level (lit "garbage") = Raise JSONDecodeError
  /\ JSONTextParser.parse_level (qlit "{'ts': 17, 'msg': 'start'}") = Ret UNKNOWN
  /\ JSONTextParser.parse_level (qlit "{'level': 'DEBUG'}") = Ret UNKNOWN.
Proof.
  split; [|split].
  - apply (structured_record_level (lit "garbage")). vm_compute. reflexivity.
  - edestruct (proj2 (structured_record_level (qlit "{'ts': 17, 'msg': 'start'}")))
      as [Hmissing _]; [vm_compute; reflexivity|].
    apply Hmissing. intros H.
    repeat (apply elem_of_cons in H; destruct H as [H|H]; [discriminate|]).
    apply elem_of_nil in H. exact H.
  - edestruct (proj2 (structured_record_level (qlit "{'level': 'DEBUG'}")))
      as [_ Hvalue]; [vm_compute; reflexivity|].
    apply (Hvalue (Json.JStr (lit "DEBUG")));
      [vm_compute; reflexivity|discriminate|discriminate|vm_compute; reflexivity].
Defined.

(** C2, as stated, fails on the line ["garbage"], which is not a
    record: the decoder's exception reaches the caller. *)
Lemma malformed_record_raises : ~ Spec.malformed_record_yields_unknown (lit "garbage").
Proof.
  unfold Spec.malformed_record_yields_unknown.
  replace (Spec.record_of (lit "garbage")) with (@None (list (str * Json.value)))
    by (vm_compute; reflexivity).
  intros H. specialize (H I). rewrite json_garbage in H. discriminate.
Qed.

(** A value that is well-formed but no object, and a level that cannot
    be hashed, raise as well. *)
Example json_not_an_object :
  JSONTextParser.parse_level (lit "[1, 2]") = Raise AttributeError.
Proof. vm_compute. reflexivity. Qed.

Example json_level_is_a_list :
  JSONTextParser.parse_level (qlit "{'level': ['ERROR']}") = Raise TypeError.
Proof. vm_compute. reflexivity. Qed.

(** ** The no-op cache *)

Lemma noop_run_calls {S} (calls : list call) (s : S) :
  run_calls NoopCache.cache calls s = s.
Proof.
  unfold run_calls. induction calls as [|x calls IH]; simpl; [reflexivity|].
  destruct x; simpl; exact IH.
Qed.

(** C9: after any history of calls, the no-op cache's [get] returns
    absent, its [set] returns and leaves the state as it was (a later
    [get] of the same key is still absent), and its [allow] returns
    true. *)
Theorem noop_cache_is_inert {S} (calls : list call) (s : S)
        (key : str) (value : option str) (ttl limit window : Z) :
  let s' := run_calls NoopCache.cache calls s in
  s' = s
  /\ NoopCache.get key s' = (Ret None, s')
  /\ NoopCache.set key value ttl s' = (Ret tt, s')
  /\ NoopCache.get key (NoopCache.set key value ttl s').2 = (Ret None, s')
  /\ NoopCache.allow key limit window s' = (Ret true, s').
Proof.
  simpl. rewrite noop_run_calls. repeat split.
Qed.

(** ** The analyser *)

Section AnalyserFacts.
Context {S : Type}.
Implicit Types (self : LogAnalyser.t S) (st : LogAnalyser.state S).

Lemma process_line_hit self c line key st v b :
  LogAnalyser.cache self = Some c ->
  line_cache_key line = Ret key ->
  BaseCache.get c key (LogAnalyser.backend st) = (Ret (Some v), b) ->
  LogAnalyser.process_line self line st
  = (Ret (Some v),
     LogAnalyser.State b (LogAnalyser.counts st)
                       (LogAnalyser.trace st ++ [CacheGet key])).
Proof.
  intros Hc Hk Hget.
  unfold LogAnalyser.process_line. rewrite Hc.
  unfold St.bind at 1. unfold lift. rewrite Hk.
  unfold St.bind, LogAnalyser.call_get, LogAnalyser.on_backend. simpl.
  rewrite Hget. reflexivity.
Qed.

Lemma process_line_miss self c line key st b :
  LogAnalyser.cache self = Some c ->
  line_cache_key line = Ret key ->
  BaseCache.get c key (LogAnalyser.backend st) = (Ret None, b) ->
  LogAnalyser.process_line self line st
  = match LogAnalyser.parser self line with
    | Raise e =>
        (Raise e,
         LogAnalyser.State b (LogAnalyser.counts st)
                           (LogAnalyser.trace st ++ [CacheGet key; ParseLevel line]))
    | Ret lvl =>
        let '(r, b') := BaseCache.set c key lvl (LogAnalyser.cache_ttl self) b in
        (match r with Ret _ => Ret lvl | Raise e => Raise e end,
         LogAnalyser.State b' (LogAnalyser.counts st)
                           (LogAnalyser.trace st
                            ++ [CacheGet key; ParseLevel line;
                                CacheSet key lvl (LogAnalyser.cache_ttl self)]))
    end.
Proof.
  intros Hc Hk Hget.
  unfold LogAnalyser.process_line. rewrite Hc.
  unfold St.bind at 1. unfold lift. rewrite Hk.
  unfold St.bind at 1. unfold LogAnalyser.call_get, LogAnalyser.on_backend. simpl.
  rewrite Hget.
  unfold LogAnalyser.parse_and_store, St.bind, LogAnalyser.call_parse. simpl.
  rewrite Hc.
  destruct (LogAnalyser.parser self line) as [lvl|e]; simpl.
  - unfold LogAnalyser.call_set, LogAnalyser.on_backend. simpl.
    rewrite <- !app_assoc. simpl.
    destruct (BaseCache.set c key lvl (LogAnalyser.cache_ttl self) b) as [[[]|e] b'];
      reflexivity.
  - unfold LogAnalyser.log. simpl. rewrite <- app_assoc. reflexivity.
Qed.

Lemma process_line_no_cache self line st :
  LogAnalyser.cache self = None ->
  LogAnalyser.process_line self line st
  = (LogAnalyser.parser self line,
     LogAnalyser.State (LogAnalyser.backend st) (LogAnalyser.counts st)
                       (LogAnalyser.trace st ++ [ParseLevel line])).
Proof.
  intros Hc. unfold LogAnalyser.process_line. rewrite Hc.
  unfold LogAnalyser.parse_and_store, St.bind, LogAnalyser.call_parse. simpl.
  destruct (LogAnalyser.parser self line); reflexivity.
Qed.

(** [process_line] never writes [self.counts]. *)
Lemma process_line_counts self line st :
  LogAnalyser.counts (LogAnalyser.process_line self line st).2 = LogAnalyser.counts st.
Proof.
  destruct (LogAnalyser.cache self) as [c|] eqn:Hc.
  - destruct (line_cache_key line) as [key|e] eqn:Hk.
    + destruct (BaseCache.get c key (LogAnalyser.backend st)) as [[[v|]|e] b] eqn:Hget.
      * rewrite (process_line_hit _ _ _ _ _ _ _ Hc Hk Hget). reflexivity.
      * rewrite (process_line_miss _ _ _ _ _ _ Hc Hk Hget).
        destruct (LogAnalyser.parser self line) as [lvl|e]; [|reflexivity].
        destruct (BaseCache.set c key lvl (LogAnalyser.cache_ttl self) b).
        reflexivity.
      * unfold LogAnalyser.process_line. rewrite Hc.
        unfold St.bind at 1. unfold lift. rewrite Hk.
        unfold St.bind, LogAnalyser.call_get, LogAnalyser.on_backend. simpl.
        rewrite Hget. reflexivity.
    + unfold LogAnalyser.process_line. rewrite Hc.
      unfold St.bind, lift. rewrite Hk. reflexivity.
  - rewrite (process_line_no_cache _ _ _ Hc). reflexivity.
Qed.

End AnalyserFacts.

(** C3, as the code has it: with a cache, [process_line] asks the
    cache for the key of the line. When the cache has a value there,
    that value is returned and the parser is not called. When it has
    none, the parser is called; a fault of the parser reaches the
    caller and nothing is written; a level that the parser returns is
    handed to [set] under the same key with the configured ttl, and is
    returned when [set] returns, while a fault of [set] reaches the
    caller. *)
Theorem cache_aside {S} (self : LogAnalyser.t S) (c : BaseCache.t S)
        (line key : str) (st : LogAnalyser.state S) :
  LogAnalyser.cache self = Some c ->
  line_cache_key line = Ret key ->
  (forall v b,
      BaseCache.get c key (LogAnalyser.backend st) = (Ret (Some v), b) ->
      LogAnalyser.process_line self line st
      = (Ret (Some v),
         LogAnalyser.State b (LogAnalyser.counts st)
                           (LogAnalyser.trace st ++ [CacheGet key])))
  /\ (forall b,
      BaseCache.get c key (LogAnalyser.backend st) = (Ret None, b) ->
      (forall e,
          LogAnalyser.parser self line = Raise e ->
          LogAnalyser.process_line self line st
          = (Raise e,
             LogAnalyser.State b (LogAnalyser.counts st)
                               (LogAnalyser.trace st ++ [CacheGet key; ParseLevel line])))
      /\ (forall lvl r b',
          LogAnalyser.parser self line = Ret lvl ->
          BaseCache.set c key lvl (LogAnalyser.cache_ttl self) b = (r, b') ->
          LogAnalyser.process_line self line st
          = (match r with Ret _ => Ret lvl | Raise e => Raise e end,
             LogAnalyser.State b' (LogAnalyser.counts st)
                               (LogAnalyser.trace st
                                ++ [CacheGet key; ParseLevel line;
                                    CacheSet key lvl (LogAnalyser.cache_ttl self)])))).
Proof.
  intros Hc Hk. split.
  - intros v b Hget. exact (process_line_hit _ _ _ _ _ _ _ Hc Hk Hget).
  - intros b Hget. split.
    + intros e Hparse.
      rewrite (process_line_miss _ _ _ _ _ _ Hc Hk Hget), Hparse. reflexivity.
    + intros lvl r b' Hparse Hset.
      rewrite (process_line_miss _ _ _ _ _ _ Hc Hk Hget), Hparse, Hset. reflexivity.
Qed.

Lemma cache_aside_witness :
  let line := lit "2024-01-01 svcA INFO start" in
  let st0 := LogAnalyser.init Redis.empty in
  let st1 := (LogAnalyser.process_line plain_redis line st0).2 in
  exists key,
    line_cache_key line = Ret key
    /\ LogAnalyser.process_line plain_redis line st1
       = (Ret (Some INFO),
          LogAnalyser.State (LogAnalyser.backend st1) ∅
                            (LogAnalyser.trace st1 ++ [CacheGet key]))
    /\ LogAnalyser.process_line plain_redis line st0
       = (Ret (Some INFO),
          LogAnalyser.State (LogAnalyser.backend st1) ∅
                            [CacheGet key; ParseLevel line; CacheSet key (Some INFO) 60]).
Proof.
  intros line st0 st1.
  destruct (line_cache_key line) as [key|e] eqn:Hk; [|vm_compute in Hk; discriminate].
  exists key. split; [reflexivity|]. split.
  - apply (proj1 (cache_aside plain_redis RedisCache.cache line key st1 eq_refl Hk)).
    vm_compute in Hk. injection Hk as <-. vm_compute. reflexivity.
  - apply (proj2 (proj2 (cache_aside plain_redis RedisCache.cache line key st0 eq_refl Hk)
                        Redis.empty
                        ltac:(vm_compute in Hk; injection Hk as <-; vm_compute; reflexivity))
                 (Some INFO) (Ret tt)).
    + vm_compute. reflexivity.
    + vm_compute in Hk. injection Hk as <-. vm_compute. reflexivity.
Defined.

(** C3, as stated for every line, fails on a miss in two ways. Through
    [RedisCache], a line whose level is UNKNOWN is parsed and its level
    handed to [set], which the client refuses: the call raises and
    returns no level. And a line that the parser cannot read raises
    from the parser, with any cache: nothing is written or returned. *)
Lemma miss_does_not_always_return :
  ~ Spec.miss_returns_level plain_redis (lit "2024-01-01 svcA DEBUG noise")
      (LogAnalyser.init Redis.empty)
  /\ ~ Spec.miss_returns_level plain_noop (lit "garbage") (LogAnalyser.init tt).
Proof.
  split.
  - intros H.
    destruct (line_cache_key (lit "2024-01-01 svcA DEBUG noise")) as [key|e] eqn:Hk;
      [|vm_compute in Hk; discriminate].
    destruct (H RedisCache.cache key Redis.empty eq_refl Hk)
      as (lvl & st' & Hrun & _).
    + vm_compute in Hk. injection Hk as <-. vm_compute. reflexivity.
    + apply (f_equal fst) in Hrun. vm_compute in Hrun. discriminate.
  - intros H.
    destruct (line_cache_key (lit "garbage")) as [key|e] eqn:Hk;
      [|vm_compute in Hk; discriminate].
    destruct (H NoopCache.cache key tt eq_refl Hk eq_refl)
      as (lvl & st' & Hrun & _).
    apply (f_equal fst) in Hrun. vm_compute in Hrun. discriminate.
Qed.

(** C10: an analyser built with [cache = None] calls the parser and
    returns what the parser returns; it makes no call to a cache and
    leaves the backend and the tally as they were. *)
Theorem no_cache_parses_directly {S} (parser : BaseParser) (ttl : Z) (line : str)
        (st : LogAnalyser.state S) :
  let self := LogAnalyser.Build parser None ttl in
  let '(r, st') := LogAnalyser.process_line self line st in
  r = parser line
  /\ LogAnalyser.trace st' = LogAnalyser.trace st ++ [ParseLevel line]
  /\ filter is_cache (LogAnalyser.trace st') = filter is_cache (LogAnalyser.trace st)
  /\ LogAnalyser.backend st' = LogAnalyser.backend st
  /\ LogAnalyser.counts st' = LogAnalyser.counts st.
Proof.
  intros self. rewrite (process_line_no_cache self line st eq_refl). simpl.
  repeat split. rewrite filter_app. simpl. apply app_nil_r.
Qed.

Example no_cache_info :
  LogAnalyser.process_line (LogAnalyser.Build PlainTextParser.parse_level None 60)
                           (lit "2024-01-01 svcA INFO start") (LogAnalyser.init tt)
  = (Ret (Some INFO),
     LogAnalyser.State tt ∅ [ParseLevel (lit "2024-01-01 svcA INFO start")]).
Proof. vm_compute. reflexivity. Qed.

(** ** The tally *)

Lemma tally_sum_empty : tally_sum ∅ = 0%nat.
Proof. unfold tally_sum. apply map_fold_empty. Qed.

Lemma tally_sum_count (counts : gmap level nat) (lvl : level) :
  tally_sum (<[lvl := (default 0 (counts !! lvl) + 1)%nat]> counts)
  = Datatypes.S (tally_sum counts).
Proof.
  unfold tally_sum.
  destruct (counts !! lvl) as [n|] eqn:Hl; simpl.
  - rewrite <- insert_delete_eq.
    rewrite map_fold_insert_L; [|intros; lia|apply lookup_delete_eq].
    rewrite (map_fold_delete_L _ _ lvl n counts); [lia|intros; lia|exact Hl].
  - rewrite map_fold_insert_L; [lia|intros; lia|exact Hl].
Qed.

Lemma count_levels_sum_from (levels : list level) (counts : gmap level nat) :
  tally_sum (fold_left (fun counts level =>
                          <[level := (default 0 (counts !! level) + 1)%nat]> counts)
                       levels counts)
  = (tally_sum counts + length levels)%nat.
Proof.
  revert counts. induction levels as [|lvl levels IH]; intros counts; simpl.
  - lia.
  - rewrite IH, tally_sum_count. lia.
Qed.

Section TallyFacts.
Context {S : Type}.
Implicit Types (self : LogAnalyser.t S) (st : LogAnalyser.state S).

Lemma for_lines_cons self line rest st :
  LogAnalyser.for_lines self (line :: rest) st
  = match LogAnalyser.process_line self line st with
    | (Ret lvl, st1) =>
        LogAnalyser.for_lines self rest
          (LogAnalyser.State (LogAnalyser.backend st1)
             (<[lvl := (default 0 (LogAnalyser.counts st1 !! lvl) + 1)%nat]>
                (LogAnalyser.counts st1))
             (LogAnalyser.trace st1))
    | (Raise e, st1) => (Raise e, st1)
    end.
Proof.
  simpl. unfold St.bind at 1.
  destruct (LogAnalyser.process_line self line st) as [[lvl|e] st1]; reflexivity.
Qed.

Lemma for_lines_sum self lines st st' :
  LogAnalyser.for_lines self lines st = (Ret tt, st') ->
  tally_sum (LogAnalyser.counts st')
  = (tally_sum (LogAnalyser.counts st) + length lines)%nat.
Proof.
  revert st. induction lines as [|line rest IH]; intros st Hrun.
  - injection Hrun as <-. simpl. lia.
  - rewrite for_lines_cons in Hrun.
    pose proof (process_line_counts self line st) as Hkeep.
    destruct (LogAnalyser.process_line self line st) as [[lvl|e] st1];
      [|discriminate].
    apply IH in Hrun. simpl in Hrun, Hkeep.
    rewrite Hrun, tally_sum_count, Hkeep. simpl. lia.
Qed.

Lemma process_lines_unfold self lines st :
  LogAnalyser.process_lines self lines st
  = match LogAnalyser.for_lines self lines st with
    | (Ret _, st') => (Ret (LogAnalyser.counts st'), st')
    | (Raise e, st') => (Raise e, st')
    end.
Proof.
  unfold LogAnalyser.process_lines, St.bind.
  destruct (LogAnalyser.for_lines self lines st) as [[[]|e] st']; reflexivity.
Qed.

Lemma levels_of_length self lines st levels st' :
  App.levels_of self lines st = (Ret levels, st') -> length levels = length lines.
Proof.
  revert st levels. induction lines as [|line rest IH]; intros st levels Hrun.
  - injection Hrun as <- <-. reflexivity.
  - simpl in Hrun. unfold St.bind at 1 in Hrun.
    destruct (LogAnalyser.process_line self line st) as [[lvl|e] st1];
      [|discriminate].
    unfold St.bind at 1 in Hrun.
    destruct (App.levels_of self rest st1) as [[ls|e] st2] eqn:Hrest;
      [|discriminate].
    injection Hrun as <- <-. simpl. f_equal. exact (IH _ _ Hrest).
Qed.

End TallyFacts.

(** C6, as the code has it: [process_line] leaves the running tally as
    it was; it is [process_lines] that, for each line, adds one to the
    tally of the level that [process_line] returned for it. *)
Theorem tally_is_kept_by_process_lines :
  (forall S (self : LogAnalyser.t S) line st,
      LogAnalyser.counts (LogAnalyser.process_line self line st).2
      = LogAnalyser.counts st)
  /\ (forall S (self : LogAnalyser.t S) line rest st lvl st1,
      LogAnalyser.process_line self line st = (Ret lvl, st1) ->
      LogAnalyser.process_lines self (line :: rest) st
      = LogAnalyser.process_lines self rest
          (LogAnalyser.State (LogAnalyser.backend st1)
             (<[lvl := (default 0 (LogAnalyser.counts st !! lvl) + 1)%nat]>
                (LogAnalyser.counts st))
             (LogAnalyser.trace st1))).
Proof.
  split.
  - intros. apply process_line_counts.
  - intros S self line rest st lvl st1 Hline.
    rewrite !process_lines_unfold, for_lines_cons.
    pose proof (process_line_counts self line st) as Hkeep.
    rewrite Hline in *. simpl in Hkeep. rewrite Hkeep. reflexivity.
Qed.

Lemma tally_is_kept_by_process_lines_witness :
  let line := lit "2024-01-01 svcA INFO start" in
  LogAnalyser.counts (LogAnalyser.process_line plain_noop line (LogAnalyser.init tt)).2 = ∅
  /\ (LogAnalyser.process_lines plain_noop [line] (LogAnalyser.init tt)).1
     = Ret {[Some INFO := 1%nat]}.
Proof.
  intros line. split.
  - apply (proj1 tally_is_kept_by_process_lines).
  - erewrite (proj2 tally_is_kept_by_process_lines unit plain_noop line []);
      [|vm_compute; reflexivity].
    reflexivity.
Defined.

(** C6, as stated, fails on the first line of a fresh analyser:
    [process_line] returns INFO and the tally is still empty. *)
Lemma process_line_does_not_count :
  ~ Spec.process_line_updates_tally plain_noop (lit "2024-01-01 svcA INFO start")
      (LogAnalyser.init tt).
Proof.
  intros H.
  specialize (H (Some INFO)
                (LogAnalyser.process_line plain_noop (lit "2024-01-01 svcA INFO start")
                                          (LogAnalyser.init tt)).2).
  assert (Hcount : @None nat = Some 1%nat);
    [apply H; vm_compute; reflexivity|discriminate Hcount].
Qed.

(** Without a cache in the way, a call returns whenever the key can be
    computed and the parser returns. *)
Lemma noop_process_line {S} (parser : BaseParser) (ttl : Z) (line key : str)
      (lvl : level) (st : LogAnalyser.state S) :
  line_cache_key line = Ret key ->
  parser line = Ret lvl ->
  LogAnalyser.process_line (LogAnalyser.Build parser (Some NoopCache.cache) ttl) line st
  = (Ret lvl,
     LogAnalyser.State (LogAnalyser.backend st) (LogAnalyser.counts st)
       (LogAnalyser.trace st ++ [CacheGet key; ParseLevel line; CacheSet key lvl ttl])).
Proof.
  intros Hk Hp.
  rewrite (process_line_miss (LogAnalyser.Build parser (Some NoopCache.cache) ttl)
             NoopCache.cache line key st (LogAnalyser.backend st) eq_refl Hk eq_refl).
  simpl. rewrite Hp. reflexivity.
Qed.

(** So a batch in which every line can be encoded and parsed does
    produce its counts. *)
Lemma noop_batch_returns {S} (mode : str) (lines : list str) (st : LogAnalyser.state S) :
  Forall (fun line => exists key, line_cache_key line = Ret key) lines ->
  Forall (fun line => exists lvl, App.parser_of mode line = Ret lvl) lines ->
  exists counts st', App.batch NoopCache.cache mode lines st = (Ret counts, st').
Proof.
  intros Hkeys Hparse. unfold App.batch.
  assert (Hlevels : exists levels st',
             App.levels_of (LogAnalyser.Build (App.parser_of mode) (Some NoopCache.cache) 60)
                           lines st = (Ret levels, st')).
  { revert st. induction lines as [|line rest IH]; intros st.
    - exists [], st. reflexivity.
    - inversion Hkeys as [|? ? [key Hk] Hkeys']; subst.
      inversion Hparse as [|? ? [lvl Hp] Hparse']; subst.
      simpl. unfold St.bind at 1.
      rewrite (noop_process_line _ _ _ _ _ _ Hk Hp).
      destruct (IH Hkeys' Hparse'
                   (LogAnalyser.State (LogAnalyser.backend st) (LogAnalyser.counts st)
                      (LogAnalyser.trace st
                       ++ [CacheGet key; ParseLevel line; CacheSet key lvl 60])))
        as (levels & st' & Hrest).
      unfold St.bind. rewrite Hrest. exists (lvl :: levels), st'. reflexivity. }
  destruct Hlevels as (levels & st' & Hlevels).
  unfold St.bind. rewrite Hlevels. eexists _, _. reflexivity.
Qed.

(** C8: the tally that a batch of N lines produces sums to N. This
    holds for the count that [batch] and [batch_threads] make of the
    levels they collected, for the tally that [process_lines] returns
    on a fresh analyser, and for the counts that [batch] returns. *)
Theorem batch_tally_sums_to_lines :
  (forall levels : list level,
      tally_sum (App.count_levels levels) = length levels)
  /\ (forall S (self : LogAnalyser.t S) lines st counts st',
      LogAnalyser.counts st = ∅ ->
      LogAnalyser.process_lines self lines st = (Ret counts, st') ->
      tally_sum counts = length lines)
  /\ (forall S (cache : BaseCache.t S) mode lines st counts st',
      App.batch cache mode lines st = (Ret counts, st') ->
      tally_sum counts = length lines).
Proof.
  split; [|split].
  - intros levels. unfold App.count_levels.
    rewrite count_levels_sum_from, tally_sum_empty. reflexivity.
  - intros S self lines st counts st' Hfresh Hrun.
    rewrite process_lines_unfold in Hrun.
    destruct (LogAnalyser.for_lines self lines st) as [[[]|e] st1] eqn:Hfor;
      [|discriminate].
    injection Hrun as <- <-.
    rewrite (for_lines_sum _ _ _ _ Hfor), Hfresh, tally_sum_empty. reflexivity.
  - intros S cache mode lines st counts st' Hrun.
    unfold App.batch, St.bind in Hrun.
    destruct (App.levels_of _ lines st) as [[levels|e] st1] eqn:Hlevels;
      [|discriminate].
    injection Hrun as <- <-.
    unfold App.count_levels.
    rewrite count_levels_sum_from, tally_sum_empty.
    exact (levels_of_length _ _ _ _ _ Hlevels).
Qed.

Lemma batch_tally_sums_to_lines_witness :
  let lines := [lit "2024-01-01 svcA INFO start"; lit "2024-01-01 svcA ERROR fail";
                lit "2024-01-01 svcA DEBUG noise"] in
  (exists counts st',
      LogAnalyser.process_lines plain_noop lines (LogAnalyser.init tt) = (Ret counts, st')
      /\ tally_sum counts = 3%nat)
  /\ (exists counts st',
      App.batch NoopCache.cache (lit "plain") lines (LogAnalyser.init tt) = (Ret counts, st')
      /\ tally_sum counts = 3%nat).
Proof.
  intros lines. split.
  - destruct (LogAnalyser.process_lines plain_noop lines (LogAnalyser.init tt))
      as [[counts|e] st'] eqn:Hrun; [|vm_compute in Hrun; discriminate].
    exists counts, st'. split; [reflexivity|].
    apply (proj1 (proj2 batch_tally_sums_to_lines) _ plain_noop lines
                 (LogAnalyser.init tt) counts st'); [reflexivity|exact Hrun].
  - destruct (App.batch NoopCache.cache (lit "plain") lines (LogAnalyser.init tt))
      as [[counts|e] st'] eqn:Hrun; [|vm_compute in Hrun; discriminate].
    exists counts, st'. split; [reflexivity|].
    exact (proj2 (proj2 batch_tally_sums_to_lines) _ _ _ _ _ _ _ Hrun).
Defined.

(** The batch of the specification's example, counted without a cache
    in the way: two names and one UNKNOWN when every line has three
    tokens, and no tally at all when one has fewer. *)
Example batch_counts_three :
  (App.batch NoopCache.cache (lit "plain")
     [lit "2024-01-01 svcA INFO start"; lit "2024-01-01 svcA ERROR fail";
      lit "2024-01-01 svcA DEBUG noise"] (LogAnalyser.init tt)).1
  = Ret (<[Some INFO := 1%nat]> (<[Some ERROR := 1%nat]> {[UNKNOWN := 1%nat]})).
Proof. vm_compute. reflexivity. Qed.

Example batch_with_garbage_raises :
  (App.batch NoopCache.cache (lit "plain")
     [lit "2024-01-01 svcA INFO start"; lit "2024-01-01 svcA ERROR fail";
      lit "garbage"] (LogAnalyser.init tt)).1
  = Raise IndexError.
Proof. vm_compute. reflexivity. Qed.

(** ** The Redis store *)

Section RedisFacts.
Implicit Types (srv : Redis.server) (key : str) (e : Redis.entry).

Lemma store_store key e1 e2 srv :
  Redis.store key e2 (Redis.store key e1 srv) = Redis.store key e2 srv.
Proof. unfold Redis.store. simpl. rewrite insert_insert_eq. reflexivity. Qed.

Lemma lookup_store key e srv :
  match Redis.expire_at e with
  | Some t => Redis.clock srv < t
  | None => True
  end ->
  Redis.lookup key (Redis.store key e srv) = Some e.
Proof.
  intros Hlive. unfold Redis.lookup, Redis.store. simpl.
  rewrite lookup_insert_eq.
  destruct (Redis.expire_at e) as [t|]; [|reflexivity].
  destruct (Z.leb_spec t (Redis.clock srv)); [lia|reflexivity].
Qed.

(** A key that a command sees has not reached its deadline. *)
Lemma lookup_live key e srv :
  Redis.lookup key srv = Some e ->
  match Redis.expire_at e with
  | Some t => Redis.clock srv < t
  | None => True
  end.
Proof.
  unfold Redis.lookup. intros Hl.
  destruct (Redis.db srv !! key) as [e'|]; [|discriminate].
  destruct (Redis.expire_at e') as [t|] eqn:Ht.
  - destruct (Z.leb_spec t (Redis.clock srv)); [discriminate|].
    injection Hl as <-. rewrite Ht. assumption.
  - injection Hl as <-. rewrite Ht. exact I.
Qed.

(** Time passes and the key is still there, until its deadline. *)
Lemma lookup_elapse key e srv ms :
  0 <= ms ->
  Redis.lookup key srv = Some e ->
  (forall t, Redis.expire_at e = Some t -> Redis.clock srv + ms < t) ->
  Redis.lookup key (Redis.elapse ms srv) = Some e.
Proof.
  unfold Redis.lookup, Redis.elapse. simpl. intros Hms Hl Hdl.
  destruct (Redis.db srv !! key) as [e'|]; [|discriminate].
  destruct (Redis.expire_at e') as [t|] eqn:Ht.
  - destruct (Z.leb_spec t (Redis.clock srv)); [discriminate|].
    injection Hl as <-. specialize (Hdl t Ht).
    destruct (Z.leb_spec t (Redis.clock srv + ms)); [lia|reflexivity].
  - exact Hl.
Qed.

(** Once the deadline is reached the key is gone. *)
Lemma lookup_expired key v t srv0 ms :
  t <= Redis.clock srv0 + ms ->
  Redis.lookup key (Redis.elapse ms (Redis.store key (Redis.Entry v (Some t)) srv0)) = None.
Proof.
  intros Ht. unfold Redis.lookup, Redis.elapse, Redis.store. simpl.
  rewrite lookup_insert_eq. simpl.
  destruct (Z.leb_spec t (Redis.clock srv0 + ms)); [reflexivity|lia].
Qed.

Lemma get_returns key srv :
  RedisCache.get key srv
  = (Ret (Redis.repr <$> (Redis.value <$> Redis.lookup key srv)), srv).
Proof. reflexivity. Qed.

(** What one [allow] does to a key that holds the count [n]; a count
    of 1 needs a window that EXPIRE accepts. *)
Lemma allow_step key limit window srv n :
  Redis.counter key srv = Some n ->
  n < Redis.LLONG_MAX ->
  (n + 1 = 1 -> Redis.deadline_fits (Redis.clock srv) window = true) ->
  RedisCache.allow key limit window srv
  = (Ret (n + 1 <=? limit),
     Redis.store key
       (Redis.Entry (Redis.RInt (n + 1))
          (if n + 1 =? 1 then Some (Redis.clock srv + 1000 * window)
           else Redis.deadline key srv))
       srv).
Proof.
  unfold Redis.counter, Redis.deadline. intros Hn Hmax Hok.
  unfold RedisCache.allow, St.bind at 1.
  unfold Redis.client.incr, Redis.INCR.
  destruct (Redis.lookup key srv) as [e|] eqn:Hl.
  - rewrite Hn.
    destruct (Z.leb_spec Redis.LLONG_MAX n); [lia|].
    pose proof (lookup_live _ _ _ Hl) as Hlive.
    destruct (Z.eqb_spec (n + 1) 1) as [Hone|Hone].
    + unfold St.bind, Redis.client.expire, Redis.EXPIRE.
      cbn [Redis.clock Redis.store]. rewrite (Hok Hone). cbn [negb].
      rewrite lookup_store by exact Hlive. simpl.
      rewrite store_store. reflexivity.
    + reflexivity.
  - injection Hn as <-. simpl.
    unfold St.bind, Redis.client.expire, Redis.EXPIRE.
    cbn [Redis.clock Redis.store]. rewrite (Hok eq_refl). cbn [negb].
    rewrite lookup_store by exact I. simpl.
    rewrite store_store. reflexivity.
Qed.

(** The first [allow] on a key with a window that EXPIRE refuses: the
    count is 1 already when the call raises. *)
Lemma allow_refused key limit window srv :
  Redis.counter key srv = Some 0 ->
  Redis.deadline_fits (Redis.clock srv) window = false ->
  RedisCache.allow key limit window srv
  = (Raise ResponseError,
     Redis.store key (Redis.Entry (Redis.RInt 1) (Redis.deadline key srv)) srv).
Proof.
  unfold Redis.counter, Redis.deadline. intros Hn Hok.
  unfold RedisCache.allow, St.bind at 1.
  unfold Redis.client.incr, Redis.INCR.
  destruct (Redis.lookup key srv) as [e|] eqn:Hl.
  - rewrite Hn. simpl.
    unfold St.bind, Redis.client.expire, Redis.EXPIRE.
    cbn [Redis.clock Redis.store]. rewrite Hok. reflexivity.
  - simpl.
    unfold St.bind, Redis.client.expire, Redis.EXPIRE.
    cbn [Redis.clock Redis.store]. rewrite Hok. reflexivity.
Qed.

Lemma deadline_fits_earlier now now' seconds :
  now' <= now ->
  Redis.deadline_fits now seconds = true ->
  Redis.deadline_fits now' seconds = true.
Proof.
  unfold Redis.deadline_fits. intros Hle H.
  apply andb_true_iff in H. destruct H as [Hfit Hsum].
  rewrite Hfit. simpl. apply Z.leb_le in Hsum. apply Z.leb_le. lia.
Qed.

Lemma deadline_fits_ms now seconds :
  Redis.deadline_fits now seconds = true -> Redis.ms_fit seconds = true.
Proof.
  unfold Redis.deadline_fits. intros H.
  apply andb_true_iff in H. exact (proj1 H).
Qed.

Lemma setex_accepted key seconds v srv :
  0 < seconds ->
  Redis.ms_fit seconds = true ->
  Redis.SETEX key seconds v srv
  = (Ret tt,
     Redis.store key (Redis.Entry (Redis.RRaw v)
                                  (Some (Redis.clock srv + 1000 * seconds))) srv).
Proof.
  intros Hpos Hfit. unfold Redis.SETEX. rewrite Hfit.
  destruct (Z.leb_spec seconds 0); [lia|reflexivity].
Qed.

Lemma setex_refused key seconds v srv :
  seconds <= 0 \/ Redis.ms_fit seconds = false ->
  Redis.SETEX key seconds v srv = (Raise ResponseError, srv).
Proof.
  intros H. unfold Redis.SETEX.
  destruct (Z.leb_spec seconds 0) as [|Hpos]; [reflexivity|].
  destruct H as [H|H]; [lia|]. rewrite H. reflexivity.
Qed.

Lemma counter_store key n dl srv :
  match dl with Some t => Redis.clock srv < t | None => True end ->
  Redis.counter key (Redis.store key (Redis.Entry (Redis.RInt n) dl) srv) = Some n
  /\ Redis.deadline key (Redis.store key (Redis.Entry (Redis.RInt n) dl) srv) = dl.
Proof.
  intros Hlive. unfold Redis.counter, Redis.deadline.
  rewrite lookup_store by exact Hlive. split; reflexivity.
Qed.

(** A call that follows others within the window. *)
Lemma allow_again key limit window srv n t :
  1 <= n < Redis.LLONG_MAX ->
  Redis.clock srv < t ->
  RedisCache.allow key limit window
    (Redis.store key (Redis.Entry (Redis.RInt n) (Some t)) srv)
  = (Ret (n + 1 <=? limit),
     Redis.store key (Redis.Entry (Redis.RInt (n + 1)) (Some t)) srv).
Proof.
  intros Hn Ht.
  destruct (counter_store key n (Some t) srv Ht) as [Hc Hd].
  rewrite (allow_step _ _ _ _ n Hc) by lia.
  rewrite Hd, store_store.
  destruct (Z.eqb_spec (n + 1) 1); [lia|reflexivity].
Qed.

End RedisFacts.

(** C5, as the code has it: on a key that holds the count [n] (0 when
    the key is not there), with a window that EXPIRE accepts when the
    count becomes 1, [RedisCache.allow] leaves the count [n + 1] at the
    key, gives the key a deadline one window ahead exactly when that
    count is 1 (any other count keeps the deadline it had), touches no
    other key, and returns whether [n + 1 <= limit]. So on a fresh key,
    with limit 5 and window 10, six calls in a row return true five
    times and then false, and a call made after the ten seconds have
    passed returns true again. *)
Theorem allow_counts_window (key : str) (srv : Redis.server) :
  (forall limit window n,
      Redis.counter key srv = Some n ->
      n < Redis.LLONG_MAX ->
      (n + 1 = 1 -> Redis.deadline_fits (Redis.clock srv) window = true) ->
      let '(r, srv') := RedisCache.allow key limit window srv in
      r = Ret (n + 1 <=? limit)
      /\ Redis.db srv' !! key
         = Some (Redis.Entry (Redis.RInt (n + 1))
                   (if n + 1 =? 1 then Some (Redis.clock srv + 1000 * window)
                    else Redis.deadline key srv))
      /\ (forall k, k <> key -> Redis.db srv' !! k = Redis.db srv !! k)
      /\ Redis.clock srv' = Redis.clock srv)
  /\ (Redis.lookup key srv = None ->
      Redis.deadline_fits (Redis.clock srv) 10 = true ->
      let '(rs, srv6) := repeat_call 6 (RedisCache.allow key 5 10) srv in
      rs = Ret [true; true; true; true; true; false]
      /\ forall ms, 10 * 1000 < ms ->
           Redis.deadline_fits (Redis.clock srv + ms) 10 = true ->
           (RedisCache.allow key 5 10 (Redis.elapse ms srv6)).1 = Ret true).
Proof.
  split.
  - intros limit window n Hn Hmax Hok.
    rewrite (allow_step _ _ _ _ n Hn Hmax Hok). simpl.
    split; [reflexivity|]. split; [apply lookup_insert_eq|].
    split; [|reflexivity].
    intros k Hk. apply lookup_insert_ne. congruence.
  - intros Hfresh Hok.
    assert (Hzero : Redis.counter key srv = Some 0)
      by (unfold Redis.counter; rewrite Hfresh; reflexivity).
    assert (Hmax : 6 < Redis.LLONG_MAX) by reflexivity.
    assert (Hlive : Redis.clock srv < Redis.clock srv + 1000 * 10) by lia.
    simpl. unfold St.bind.
    rewrite (allow_step _ _ _ _ 0 Hzero) by (intros; assumption || lia). simpl.
    rewrite (allow_again _ _ _ _ 1) by lia. simpl.
    rewrite (allow_again _ _ _ _ 2) by lia. simpl.
    rewrite (allow_again _ _ _ _ 3) by lia. simpl.
    rewrite (allow_again _ _ _ _ 4) by lia. simpl.
    rewrite (allow_again _ _ _ _ 5) by lia. simpl.
    split; [reflexivity|].
    intros ms Hms Hok'.
    rewrite (allow_step _ _ _ _ 0); [reflexivity| |lia|intros _; exact Hok'].
    unfold Redis.counter. rewrite lookup_expired by lia. reflexivity.
Qed.

Lemma allow_counts_window_witness :
  let key := lit "ratelimit:log_api:/batch" in
  (let '(r, srv') := RedisCache.allow key 100 10 Redis.empty in
   r = Ret true
   /\ Redis.db srv' !! key = Some (Redis.Entry (Redis.RInt 1) (Some 10000)))
  /\ (let '(rs, srv6) := repeat_call 6 (RedisCache.allow key 5 10) Redis.empty in
      rs = Ret [true; true; true; true; true; false]
      /\ (RedisCache.allow key 5 10 (Redis.elapse 10001 srv6)).1 = Ret true).
Proof.
  intros key. split.
  - pose proof (proj1 (allow_counts_window key Redis.empty) 100 10 0 eq_refl eq_refl
                      (fun _ => eq_refl))
      as H.
    destruct (RedisCache.allow key 100 10 Redis.empty) as [r srv'].
    destruct H as (Hr & Hdb & _). split; [exact Hr|exact Hdb].
  - pose proof (proj2 (allow_counts_window key Redis.empty) eq_refl eq_refl) as H.
    destruct (repeat_call 6 (RedisCache.allow key 5 10) Redis.empty) as [rs srv6].
    destruct H as [Hrs Hlater]. split; [exact Hrs|].
    apply Hlater; [lia|reflexivity].
Defined.

(** C5, as stated for every window, fails on a window whose
    milliseconds do not fit in 64 bits: the first call on a fresh key
    increments the counter, EXPIRE refuses the window, and [allow]
    raises with the count 1 left at the key and no deadline on it. *)
Lemma huge_window_is_refused :
  RedisCache.allow App.RATE_KEY 5 (2 ^ 63 - 1) Redis.empty
  = (Raise ResponseError,
     Redis.store App.RATE_KEY (Redis.Entry (Redis.RInt 1) None) Redis.empty)
  /\ ~ Spec.allow_arms_any_window App.RATE_KEY 5 (2 ^ 63 - 1) Redis.empty.
Proof.
  assert (Hrun : RedisCache.allow App.RATE_KEY 5 (2 ^ 63 - 1) Redis.empty
                 = (Raise ResponseError,
                    Redis.store App.RATE_KEY (Redis.Entry (Redis.RInt 1) None) Redis.empty))
    by (apply allow_refused; reflexivity).
  split; [exact Hrun|].
  intros H. specialize (H 0 eq_refl eq_refl). rewrite Hrun in H.
  destruct H as [H _]. discriminate.
Qed.

(** ** The same line twice *)

(** A call that returns UNKNOWN has called the parser: the cache tells
    "no entry" by [None], so [None] is never served from it. *)
Lemma unknown_result_was_parsed {S} (self : LogAnalyser.t S) (line : str)
      (st st1 : LogAnalyser.state S) :
  LogAnalyser.process_line self line st = (Ret UNKNOWN, st1) ->
  filter is_parse (LogAnalyser.trace st1)
  = filter is_parse (LogAnalyser.trace st) ++ [ParseLevel line].
Proof.
  intros Hrun.
  destruct (LogAnalyser.cache self) as [c|] eqn:Hc.
  - destruct (line_cache_key line) as [key|e] eqn:Hk.
    + destruct (BaseCache.get c key (LogAnalyser.backend st)) as [[[v|]|e] b] eqn:Hget.
      * rewrite (process_line_hit _ _ _ _ _ _ _ Hc Hk Hget) in Hrun. discriminate.
      * rewrite (process_line_miss _ _ _ _ _ _ Hc Hk Hget) in Hrun.
        destruct (LogAnalyser.parser self line) as [lvl|e]; [|discriminate].
        destruct (BaseCache.set c key lvl (LogAnalyser.cache_ttl self) b) as [[[]|e] b'];
          [|discriminate].
        injection Hrun as _ <-. simpl. rewrite filter_app. reflexivity.
      * unfold LogAnalyser.process_line in Hrun. rewrite Hc in Hrun.
        unfold St.bind at 1 in Hrun. unfold lift in Hrun. rewrite Hk in Hrun.
        unfold St.bind, LogAnalyser.call_get, LogAnalyser.on_backend in Hrun.
        simpl in Hrun. rewrite Hget in Hrun. discriminate.
    + unfold LogAnalyser.process_line in Hrun. rewrite Hc in Hrun.
      unfold St.bind, lift in Hrun. rewrite Hk in Hrun. discriminate.
  - rewrite (process_line_no_cache _ _ _ Hc) in Hrun.
    injection Hrun as _ <-. simpl. rewrite filter_app. reflexivity.
Qed.

(** With [RedisCache], a line that was given a name is served from the
    cache for as long as its entry lives. *)
Lemma redis_second_call (parser : BaseParser) (ttl : Z) (line key : str)
      (st st1 : LogAnalyser.state Redis.server) (name : str) (ms : Z) :
  let self := LogAnalyser.Build parser (Some RedisCache.cache) ttl in
  line_cache_key line = Ret key ->
  LogAnalyser.process_line self line st = (Ret (Some name), st1) ->
  0 <= ms ->
  (forall t, Redis.deadline key (LogAnalyser.backend st1) = Some t ->
             Redis.clock (LogAnalyser.backend st1) + ms < t) ->
  LogAnalyser.process_line self line
    (LogAnalyser.State (Redis.elapse ms (LogAnalyser.backend st1))
                       (LogAnalyser.counts st1) (LogAnalyser.trace st1))
  = (Ret (Some name),
     LogAnalyser.State (Redis.elapse ms (LogAnalyser.backend st1))
                       (LogAnalyser.counts st1)
                       (LogAnalyser.trace st1 ++ [CacheGet key])).
Proof.
  intros self Hk Hrun Hms Hdl.
  assert (Hc : LogAnalyser.cache self = Some RedisCache.cache) by reflexivity.
  assert (Hlater : exists e, Redis.lookup key (LogAnalyser.backend st1) = Some e
                             /\ Redis.repr (Redis.value e) = name).
  { pose proof (get_returns key (LogAnalyser.backend st)) as Hget.
    destruct (Redis.lookup key (LogAnalyser.backend st)) as [e|] eqn:Hl.
    - rewrite (process_line_hit self _ line key st _ _ Hc Hk Hget) in Hrun.
      injection Hrun as <- <-. exists e. split; [exact Hl|reflexivity].
    - rewrite (process_line_miss self _ line key st _ Hc Hk Hget) in Hrun.
      destruct (LogAnalyser.parser self line) as [[s|]|e]; [| |discriminate].
      + simpl in Hrun. unfold RedisCache.set, Redis.client.setex, Redis.SETEX in Hrun.
        destruct (Z.leb_spec ttl 0); [discriminate|].
        destruct (Redis.ms_fit ttl); [|discriminate].
        injection Hrun as <- <-. simpl.
        eexists. split; [apply lookup_store; simpl; lia|reflexivity].
      + discriminate. }
  destruct Hlater as (e & Hl & <-).
  set (later := LogAnalyser.State (Redis.elapse ms (LogAnalyser.backend st1))
                                  (LogAnalyser.counts st1) (LogAnalyser.trace st1)).
  apply (process_line_hit self RedisCache.cache line key later _ _ Hc Hk).
  simpl. rewrite get_returns.
  rewrite (lookup_elapse key e _ ms Hms Hl); [reflexivity|].
  intros t Ht. apply Hdl. unfold Redis.deadline. rewrite Hl. exact Ht.
Qed.

(** C4, as the code has it: of two calls of [process_line] on the same
    line through the same [RedisCache], when the first returns one of
    the names and the entry of the line has not reached its deadline,
    the second returns the same name from the cache, with no call to
    the parser. A result of UNKNOWN is not served from a cache: with
    any cache, a call that returns UNKNOWN has called the parser. *)
Theorem named_level_is_served_from_cache :
  (forall (parser : BaseParser) (ttl : Z) (line key name : str)
          (st st1 : LogAnalyser.state Redis.server) (ms : Z),
      let self := LogAnalyser.Build parser (Some RedisCache.cache) ttl in
      line_cache_key line = Ret key ->
      LogAnalyser.process_line self line st = (Ret (Some name), st1) ->
      0 <= ms ->
      (forall t, Redis.deadline key (LogAnalyser.backend st1) = Some t ->
                 Redis.clock (LogAnalyser.backend st1) + ms < t) ->
      let later := LogAnalyser.State (Redis.elapse ms (LogAnalyser.backend st1))
                                     (LogAnalyser.counts st1) (LogAnalyser.trace st1) in
      exists st2,
        LogAnalyser.process_line self line later = (Ret (Some name), st2)
        /\ LogAnalyser.trace st2 = LogAnalyser.trace st1 ++ [CacheGet key]
        /\ filter is_parse (LogAnalyser.trace st2)
           = filter is_parse (LogAnalyser.trace st1))
  /\ (forall S (self : LogAnalyser.t S) (line : str) (st st1 : LogAnalyser.state S),
      LogAnalyser.process_line self line st = (Ret UNKNOWN, st1) ->
      filter is_parse (LogAnalyser.trace st1)
      = filter is_parse (LogAnalyser.trace st) ++ [ParseLevel line]).
Proof.
  split.
  - intros parser ttl line key name st st1 ms self Hk Hrun Hms Hdl later.
    eexists. split; [exact (redis_second_call parser ttl line key st st1 name ms Hk Hrun Hms Hdl)|].
    simpl. split; [reflexivity|].
    rewrite filter_app. simpl. apply app_nil_r.
  - intros S self line st st1. apply unknown_result_was_parsed.
Qed.

Lemma named_level_is_served_from_cache_witness :
  let line := lit "2024-01-01 svcA INFO start" in
  let st1 := (LogAnalyser.process_line plain_redis line (LogAnalyser.init Redis.empty)).2 in
  let later := LogAnalyser.State (Redis.elapse 59999 (LogAnalyser.backend st1))
                                 (LogAnalyser.counts st1) (LogAnalyser.trace st1) in
  exists st2,
    LogAnalyser.process_line plain_redis line later = (Ret (Some INFO), st2)
    /\ filter is_parse (LogAnalyser.trace st2) = [ParseLevel line].
Proof.
  intros line st1 later.
  destruct (line_cache_key line) as [key|e] eqn:Hk; [|vm_compute in Hk; discriminate].
  destruct (proj1 named_level_is_served_from_cache PlainTextParser.parse_level 60
                  line key INFO (LogAnalyser.init Redis.empty) st1 59999 Hk)
    as (st2 & Hrun & _ & Hparse).
  - vm_compute. reflexivity.
  - lia.
  - vm_compute in Hk. injection Hk as <-. vm_compute.
    intros t Ht. injection Ht as <-. reflexivity.
  - exists st2. split; [exact Hrun|]. rewrite Hparse. vm_compute. reflexivity.
Defined.

(** C4, as stated, fails on a line whose level is UNKNOWN: the first
    call misses, parses, and hands [None] to [set], which the client
    refuses; no level is returned, and nothing is left in the cache for
    a second call to hit. *)
Lemma unknown_is_not_cached :
  PlainTextParser.parse_level (lit "2024-01-01 svcA DEBUG noise") = Ret UNKNOWN
  /\ ~ Spec.second_call_is_hit plain_redis (lit "2024-01-01 svcA DEBUG noise")
        (LogAnalyser.init Redis.empty).
Proof.
  split; [vm_compute; reflexivity|].
  intros (lvl & st1 & st2 & Hfirst & _).
  apply (f_equal fst) in Hfirst. vm_compute in Hfirst. discriminate.
Qed.

Example unknown_line_with_redis :
  (LogAnalyser.process_line plain_redis (lit "2024-01-01 svcA DEBUG noise")
                            (LogAnalyser.init Redis.empty)).1
  = Raise DataError.
Proof. vm_compute. reflexivity. Qed.

(* ================================================================== *)
(** * Further properties of the code *)

(** ** The parsers *)

Lemma split_from_leading_space (pre s : str) :
  forallb isspace pre = true -> split_from [] (pre ++ s) = split_from [] s.
Proof.
  induction pre as [|c pre IH]; simpl; [reflexivity|].
  intros H. apply andb_true_iff in H. destruct H as [Hc Hpre].
  rewrite Hc. exact (IH Hpre).
Qed.

Lemma split_from_trailing_space (w s post : str) :
  forallb isspace post = true -> split_from w (s ++ post) = split_from w s.
Proof.
  induction post as [|c post IH] using rev_ind; intros H.
  - rewrite app_nil_r. reflexivity.
  - rewrite forallb_app in H. apply andb_true_iff in H. destruct H as [Hpost Hc].
    simpl in Hc. rewrite andb_true_r in Hc.
    rewrite app_assoc, split_from_snoc_space by exact Hc. exact (IH Hpost).
Qed.

(** X1: the plain-text parser reads nothing but the third word of the
    line. White space before and after the line does not change its
    result, and two lines with the same third word (or both without
    one) get the same result, whatever else they hold. *)
Theorem plain_reads_third_word :
  (forall pre post line : str,
      forallb isspace pre = true -> forallb isspace post = true ->
      PlainTextParser.parse_level (pre ++ line ++ post)
      = PlainTextParser.parse_level line)
  /\ (forall l1 l2 : str,
      split l1 !! 2%nat = split l2 !! 2%nat ->
      PlainTextParser.parse_level l1 = PlainTextParser.parse_level l2).
Proof.
  split.
  - intros pre post line Hpre Hpost.
    rewrite !plain_parse_level_unfold. unfold split.
    rewrite split_from_leading_space by exact Hpre.
    rewrite split_from_trailing_space by exact Hpost. reflexivity.
  - intros l1 l2 H. rewrite !plain_parse_level_unfold, H. reflexivity.
Qed.

Lemma plain_reads_third_word_witness :
  PlainTextParser.parse_level (lit "  " ++ lit "t svc ERROR disk full" ++ [0x0A%N])
  = PlainTextParser.parse_level (lit "t svc ERROR disk full")
  /\ PlainTextParser.parse_level (lit "t svc ERROR disk full")
     = PlainTextParser.parse_level (lit "2024-01-01   other ERROR").
Proof.
  split.
  - apply (proj1 plain_reads_third_word); reflexivity.
  - apply (proj2 plain_reads_third_word). vm_compute. reflexivity.
Defined.

(** X2: a parser returns one of the three names or [None], never any
    other string, in either mode. *)
Theorem parsers_return_known_names (mode line name : str) :
  App.parser_of mode line = Ret (Some name) -> name ∈ LEVELS.
Proof.
  unfold App.parser_of. destruct (bool_decide (mode = lit "plain")).
  - rewrite plain_parse_level_unfold.
    destruct (split line !! 2%nat) as [third|]; [|discriminate].
    destruct (bool_decide (third ∈ LEVELS)) eqn:Hin; [|discriminate].
    intros H. injection H as <-. exact (proj1 (bool_decide_eq_true _) Hin).
  - unfold JSONTextParser.parse_level, Py.bind.
    destruct (Json.loads line) as [obj|e]; [|discriminate].
    destruct (Json.get obj (lit "level")) as [v|e]; [|discriminate].
    destruct v as [|b|n|x|s|l|d]; simpl; try discriminate.
    destruct (bool_decide (s ∈ LEVELS)) eqn:Hin; [|discriminate].
    intros H. injection H as <-. exact (proj1 (bool_decide_eq_true _) Hin).
Qed.

Lemma parsers_return_known_names_witness :
  App.parser_of (lit "json") (qlit "{'level': 'ERROR'}") = Ret (Some ERROR)
  /\ ERROR ∈ LEVELS.
Proof.
  split; [vm_compute; reflexivity|].
  apply (parsers_return_known_names (lit "json") (qlit "{'level': 'ERROR'}") ERROR).
  vm_compute. reflexivity.
Defined.

(** X3: the structured parser raises on a line that is well-formed
    JSON but not what it expects: [AttributeError] when the value is
    not an object (it has no [get]), and [TypeError] when the value at
    ["level"] is a list or an object (it cannot be looked up in a
    set). *)
Theorem structured_faults (line : str) :
  (forall v, Json.loads line = Ret v -> (forall pairs, v <> Json.JDict pairs) ->
             JSONTextParser.parse_level line = Raise AttributeError)
  /\ (forall pairs, Json.loads line = Ret (Json.JDict pairs) ->
      (exists l, Json.dict_get (lit "level") pairs = Json.JList l)
      \/ (exists d, Json.dict_get (lit "level") pairs = Json.JDict d) ->
      JSONTextParser.parse_level line = Raise TypeError).
Proof.
  unfold JSONTextParser.parse_level. split.
  - intros v Hv Hnot. rewrite Hv.
    destruct v; try reflexivity. destruct (Hnot pairs). reflexivity.
  - intros pairs Hp Hlevel. rewrite Hp. simpl.
    destruct Hlevel as [[l ->]|[d ->]]; reflexivity.
Qed.

Lemma structured_faults_witness :
  JSONTextParser.parse_level (lit "[1, 2]") = Raise AttributeError
  /\ JSONTextParser.parse_level (qlit "{'level': {'name': 'ERROR'}}") = Raise TypeError.
Proof.
  split.
  - apply (proj1 (structured_faults (lit "[1, 2]")) (Json.JList [Json.JInt 1; Json.JInt 2])).
    + vm_compute. reflexivity.
    + discriminate.
  - eapply (proj2 (structured_faults (qlit "{'level': {'name': 'ERROR'}}"))).
    + vm_compute. reflexivity.
    + right. eexists. vm_compute. reflexivity.
Defined.

(** ** Encoding and hashing *)

Section HashFacts.
Local Open Scope N_scope.

Lemma encode_raises (s : str) (e : exn) :
  Hashlib.encode s = Raise e -> e = UnicodeEncodeError.
Proof.
  induction s as [|c s IH]; simpl; [discriminate|].
  unfold Hashlib.encode_char.
  destruct (c <? 0x80); [|destruct (c <? 0x800); [|destruct (c <? 0x10000);
    [destruct ((0xD800 <=? c) && (c <=? 0xDFFF))|]]];
    destruct (Hashlib.encode s) as [bs|e']; intros H;
    try discriminate; injection H as <-; try reflexivity; apply IH; reflexivity.
Qed.

(** A line can be encoded unless it holds a surrogate. *)
Lemma encode_returns (s : str) :
  if existsb (fun c => (0xD800 <=? c) && (c <=? 0xDFFF)) s
  then Hashlib.encode s = Raise UnicodeEncodeError
  else exists bytes, Hashlib.encode s = Ret bytes.
Proof.
  induction s as [|c s IH]; simpl; [exists []; reflexivity|].
  unfold Hashlib.encode_char.
  destruct ((0xD800 <=? c) && (c <=? 0xDFFF)) eqn:Hsur; simpl.
  - apply andb_true_iff in Hsur. destruct Hsur as [Hlo Hhi].
    apply N.leb_le in Hlo, Hhi.
    destruct (N.ltb_spec c 0x80); [lia|].
    destruct (N.ltb_spec c 0x800); [lia|].
    destruct (N.ltb_spec c 0x10000); [|lia].
    destruct (Hashlib.encode s); reflexivity.
  - destruct (existsb _ s).
    + rewrite IH.
      destruct (c <? 0x80); [|destruct (c <? 0x800); [|destruct (c <? 0x10000)]];
        reflexivity.
    + destruct IH as [bs ->].
      destruct (c <? 0x80); [|destruct (c <? 0x800); [|destruct (c <? 0x10000)]];
        eexists; reflexivity.
Qed.

Lemma round_length (st : list N) (kw : N * N) :
  length (Hashlib.round st kw) = length st.
Proof.
  unfold Hashlib.round.
  do 9 (destruct st as [|? st]; try reflexivity).
Qed.

Lemma compress_length (h block : list N) :
  length (Hashlib.compress h block) = length h.
Proof.
  unfold Hashlib.compress. rewrite List.length_map, List.length_combine.
  assert (Hfold : forall l st, length (fold_left Hashlib.round l st) = length st).
  { induction l as [|kw l IH]; intros st; simpl; [reflexivity|].
    rewrite IH. apply round_length. }
  rewrite Hfold. apply Nat.min_id.
Qed.

Lemma sha256_length (msg : list N) : length (Hashlib.sha256 msg) = 8%nat.
Proof.
  unfold Hashlib.sha256.
  generalize (Hashlib.blocks (length (Hashlib.pad msg) / 64) (Hashlib.pad msg)).
  assert (Hfold : forall l h, length (fold_left Hashlib.compress l h) = length h).
  { induction l as [|b l IH]; intros h; simpl; [reflexivity|].
    rewrite IH. apply compress_length. }
  intros l. rewrite Hfold. reflexivity.
Qed.

Lemma hexdigit_lower (x : N) :
  x < 16 ->
  (0x30 <=? Hashlib.hexdigit x) && (Hashlib.hexdigit x <=? 0x39)
  || (0x61 <=? Hashlib.hexdigit x) && (Hashlib.hexdigit x <=? 0x66) = true.
Proof.
  intros Hx. unfold Hashlib.hexdigit.
  destruct (N.ltb_spec x 10).
  - apply orb_true_iff. left. apply andb_true_iff. split; apply N.leb_le; lia.
  - apply orb_true_iff. right. apply andb_true_iff. split; apply N.leb_le; lia.
Qed.

Lemma low_half_lt (x : N) : N.land x 0xF < 16.
Proof.
  change 0xF with (N.ones 4). rewrite N.land_ones.
  apply N.mod_lt. discriminate.
Qed.

Lemma hexdigest_shape (msg : list N) :
  length (Hashlib.hexdigest msg) = 64%nat
  /\ Forall (fun c => (0x30 <=? c) && (c <=? 0x39) || (0x61 <=? c) && (c <=? 0x66) = true)
            (Hashlib.hexdigest msg).
Proof.
  unfold Hashlib.hexdigest. pose proof (sha256_length msg) as Hlen. split.
  - generalize dependent (Hashlib.sha256 msg). intros ws Hlen.
    do 9 (destruct ws as [|? ws]; try discriminate). reflexivity.
  - apply List.Forall_forall. intros c Hin.
    apply in_flat_map in Hin. destruct Hin as (w & _ & Hin).
    apply in_map_iff in Hin. destruct Hin as (i & <- & _).
    apply hexdigit_lower, low_half_lt.
Qed.

Lemma flat_map_flat_map {A B C} (f : B -> list C) (g : A -> list B) (l : list A) :
  flat_map f (flat_map g l) = flat_map (fun x => flat_map f (g x)) l.
Proof.
  induction l as [|x l IH]; simpl; [reflexivity|].
  rewrite flat_map_app, IH. reflexivity.
Qed.

Lemma be_bytes_S (n : nat) (w : N) :
  Hashlib.be_bytes (S n) w
  = N.land (N.shiftr w (8 * N.of_nat n)) 0xFF :: Hashlib.be_bytes n w.
Proof.
  unfold Hashlib.be_bytes. rewrite seq_S, rev_unit. reflexivity.
Qed.

(** The hexadecimal digits of the bytes of a word are the half-bytes of
    the word. *)
Lemma hex_be_bytes (n : nat) (w : N) :
  Hashlib.hex (Hashlib.be_bytes n w)
  = map (fun i => Hashlib.hexdigit (N.land (N.shiftr w (4 * N.of_nat i)) 0xF))
        (rev (seq 0 (2 * n))).
Proof.
  induction n as [|n IH].
  - reflexivity.
  - rewrite be_bytes_S.
    replace (2 * S n)%nat with (S (S (2 * n))) by lia.
    rewrite !seq_S, !rev_unit. simpl plus.
    change (Hashlib.hex (?b :: ?bs))
      with ([Hashlib.hexdigit (N.shiftr b 4); Hashlib.hexdigit (N.land b 0xF)]
            ++ Hashlib.hex bs).
    rewrite IH. cbn [map app]. f_equal; [|f_equal].
    + f_equal. rewrite N.shiftr_land, N.shiftr_shiftr.
      change (N.shiftr 0xFF 4) with 0xF. do 2 f_equal. lia.
    + f_equal. rewrite <- N.land_assoc. change (N.land 0xFF 0xF) with 0xF.
      do 2 f_equal. lia.
Qed.

(** [digest().hex()] is [hexdigest()]. *)
Lemma hex_digest (msg : list N) :
  Hashlib.hex (Hashlib.digest msg) = Hashlib.hexdigest msg.
Proof.
  unfold Hashlib.digest, Hashlib.hexdigest.
  unfold Hashlib.hex at 1. rewrite flat_map_flat_map.
  apply flat_map_ext. intros w. apply (hex_be_bytes 4 w).
Qed.

End HashFacts.

Lemma line_cache_key_surrogate (line : str) :
  existsb (fun c => (0xD800 <=? c) && (c <=? 0xDFFF))%N line = true ->
  line_cache_key line = Raise UnicodeEncodeError.
Proof.
  intros Hsur. pose proof (encode_returns line) as Henc. rewrite Hsur in Henc.
  unfold line_cache_key. rewrite Henc. reflexivity.
Qed.

Lemma cpu_heavy_surrogate (line : str) (rounds : Z) :
  existsb (fun c => (0xD800 <=? c) && (c <=? 0xDFFF))%N line = true ->
  App.cpu_heavy line rounds = Raise UnicodeEncodeError.
Proof.
  intros Hsur. pose proof (encode_returns line) as Henc. rewrite Hsur in Henc.
  unfold App.cpu_heavy. rewrite Henc. reflexivity.
Qed.

Lemma cpu_heavy_returns (line : str) (rounds : Z) :
  existsb (fun c => (0xD800 <=? c) && (c <=? 0xDFFF))%N line = false ->
  1 <= rounds ->
  exists h, App.cpu_heavy line rounds = Ret h /\ length h = 64%nat.
Proof.
  intros Hsur Hr. pose proof (encode_returns line) as Henc. rewrite Hsur in Henc.
  destruct Henc as [data Hdata]. unfold App.cpu_heavy. rewrite Hdata. simpl.
  eexists. split; [reflexivity|].
  destruct (Z.to_nat rounds) as [|n] eqn:Hn; [lia|].
  simpl. rewrite hex_digest. apply hexdigest_shape.
Qed.

(** X5: [line_cache_key] raises [UnicodeEncodeError] on a line that
    holds a surrogate code point, and on any other line returns
    ["loglevel:"] followed by 64 lower-case hexadecimal digits. *)
Theorem cache_key_shape (line : str) :
  (existsb (fun c => (0xD800 <=? c) && (c <=? 0xDFFF))%N line = true ->
   line_cache_key line = Raise UnicodeEncodeError)
  /\ (existsb (fun c => (0xD800 <=? c) && (c <=? 0xDFFF))%N line = false ->
      exists digest,
        line_cache_key line = Ret (lit "loglevel:" ++ digest)
        /\ length digest = 64%nat
        /\ Forall (fun c => ((0x30 <=? c) && (c <=? 0x39)
                             || (0x61 <=? c) && (c <=? 0x66))%N = true) digest).
Proof.
  pose proof (encode_returns line) as Henc. unfold line_cache_key.
  split; intros Hsur; rewrite Hsur in Henc.
  - rewrite Henc. reflexivity.
  - destruct Henc as [bytes ->]. simpl.
    exists (Hashlib.hexdigest bytes). split; [reflexivity|].
    apply hexdigest_shape.
Qed.

Lemma cache_key_shape_witness :
  line_cache_key [0x61%N; 0xD800%N] = Raise UnicodeEncodeError
  /\ exists digest,
       line_cache_key (lit "2024-01-01 svcA INFO start") = Ret (lit "loglevel:" ++ digest)
       /\ length digest = 64%nat.
Proof.
  split.
  - apply (proj1 (cache_key_shape [0x61%N; 0xD800%N])). reflexivity.
  - destruct (proj2 (cache_key_shape (lit "2024-01-01 svcA INFO start")) eq_refl)
      as (digest & Hkey & Hlen & _).
    exists digest. split; [exact Hkey|exact Hlen].
Defined.

(** X6: [cpu_heavy] raises [UnicodeEncodeError] on a line that holds a
    surrogate; on any other line it returns the empty string when
    [rounds] is zero or negative, and 64 lower-case hexadecimal digits
    when [rounds] is at least one. *)
Theorem cpu_heavy_shape (line : str) (rounds : Z) :
  (existsb (fun c => (0xD800 <=? c) && (c <=? 0xDFFF))%N line = true ->
   App.cpu_heavy line rounds = Raise UnicodeEncodeError)
  /\ (existsb (fun c => (0xD800 <=? c) && (c <=? 0xDFFF))%N line = false ->
      exists h,
        App.cpu_heavy line rounds = Ret h
        /\ (rounds <= 0 -> h = [])
        /\ (1 <= rounds ->
            length h = 64%nat
            /\ Forall (fun c => ((0x30 <=? c) && (c <=? 0x39)
                                 || (0x61 <=? c) && (c <=? 0x66))%N = true) h)).
Proof.
  pose proof (encode_returns line) as Henc. unfold App.cpu_heavy.
  split; intros Hsur; rewrite Hsur in Henc.
  - rewrite Henc. reflexivity.
  - destruct Henc as [data ->]. simpl. eexists. split; [reflexivity|]. split.
    + intros Hr. destruct rounds as [|p|p]; [reflexivity|lia|reflexivity].
    + intros Hr.
      destruct (Z.to_nat rounds) as [|n] eqn:Hn; [lia|].
      simpl. rewrite hex_digest. apply hexdigest_shape.
Qed.

Lemma cpu_heavy_shape_witness :
  App.cpu_heavy [0xDFFF%N] 3 = Raise UnicodeEncodeError
  /\ App.cpu_heavy (lit "abc") 0 = Ret []
  /\ exists h, App.cpu_heavy (lit "abc") 3 = Ret h /\ length h = 64%nat.
Proof.
  split; [|split].
  - apply (proj1 (cpu_heavy_shape [0xDFFF%N] 3)). reflexivity.
  - destruct (proj2 (cpu_heavy_shape (lit "abc") 0) eq_refl) as (h & Hrun & Hzero & _).
    rewrite Hrun, Hzero; [reflexivity|lia].
  - destruct (proj2 (cpu_heavy_shape (lit "abc") 3) eq_refl) as (h & Hrun & _ & Hlen).
    exists h. split; [exact Hrun|]. apply Hlen. lia.
Defined.

(** X7: one round of [cpu_heavy] is the digest that [line_cache_key]
    puts after its prefix. *)
Theorem cache_key_is_one_round (line key : str) :
  line_cache_key line = Ret key ->
  exists h, App.cpu_heavy line 1 = Ret h /\ key = lit "loglevel:" ++ h.
Proof.
  unfold line_cache_key, App.cpu_heavy.
  destruct (Hashlib.encode line) as [data|e]; simpl; [|discriminate].
  intros H. injection H as <-. eexists. split; [reflexivity|].
  rewrite app_nil_r, hex_digest. reflexivity.
Qed.

Lemma cache_key_is_one_round_witness :
  exists h, App.cpu_heavy (lit "abc") 1 = Ret h
            /\ line_cache_key (lit "abc") = Ret (lit "loglevel:" ++ h).
Proof.
  destruct (line_cache_key (lit "abc")) as [key|e] eqn:Hk; [|vm_compute in Hk; discriminate].
  destruct (cache_key_is_one_round (lit "abc") key Hk) as (h & Hrun & ->).
  exists h. split; [exact Hrun|reflexivity].
Defined.

Lemma pool_map_returns {A B} (f : A -> res B) (l : list A) :
  Forall (fun x => exists y, f x = Ret y) l ->
  exists ys, App.pool_map f l = Ret ys
             /\ Forall2 (fun x y => f x = Ret y) l ys.
Proof.
  induction l as [|x l IH]; intros Hall.
  - exists []. split; [reflexivity|constructor].
  - inversion Hall as [|? ? [y Hy] Hrest]; subst.
    destruct (IH Hrest) as (ys & Hys & Hfrom).
    exists (y :: ys). simpl. rewrite Hy. simpl. rewrite Hys. simpl.
    split; [reflexivity|]. constructor; [exact Hy|exact Hfrom].
Qed.

Lemma pool_map_raises {A B} (f : A -> res B) (before after : list A) (x : A) (e : exn) :
  Forall (fun x => exists y, f x = Ret y) before ->
  f x = Raise e ->
  App.pool_map f (before ++ x :: after) = Raise e.
Proof.
  intros Hbefore Hx. induction before as [|b before IH]; simpl.
  - rewrite Hx. reflexivity.
  - inversion Hbefore as [|? ? [y Hy] Hrest]; subst.
    rewrite Hy. simpl. rewrite (IH Hrest). reflexivity.
Qed.

(** X8: for lines that can all be encoded, [cpu_processes] answers
    with what [cpu_heavy] returns for the first three lines, in their
    order (for all the lines when there are fewer), each hash of 64
    digits, and with the number of lines as the total. The first line
    that holds a surrogate makes the request raise
    [UnicodeEncodeError]. *)
Theorem cpu_processes_response :
  (forall lines : list str,
      Forall (fun line =>
                existsb (fun c => (0xD800 <=? c) && (c <=? 0xDFFF))%N line = false) lines ->
      exists hashes,
        App.cpu_processes lines = Ret (hashes, length lines)
        /\ Forall2 (fun line h => App.cpu_heavy line 20000 = Ret h)
                   (firstn 3 lines) hashes
        /\ length hashes = Nat.min 3 (length lines)
        /\ Forall (fun h => length h = 64%nat) hashes)
  /\ (forall (before after : list str) (line : str),
      Forall (fun line =>
                existsb (fun c => (0xD800 <=? c) && (c <=? 0xDFFF))%N line = false) before ->
      existsb (fun c => (0xD800 <=? c) && (c <=? 0xDFFF))%N line = true ->
      App.cpu_processes (before ++ line :: after) = Raise UnicodeEncodeError).
Proof.
  assert (Hok : forall l : list str,
             Forall (fun line =>
                       existsb (fun c => (0xD800 <=? c) && (c <=? 0xDFFF))%N line = false) l ->
             Forall (fun line => exists h, App.cpu_heavy line 20000 = Ret h) l).
  { intros l. apply List.Forall_impl. intros line Hline.
    destruct (cpu_heavy_returns line 20000 Hline) as (h & Hrun & _); [lia|].
    exists h. exact Hrun. }
  split.
  - intros lines Hall. unfold App.cpu_processes.
    destruct (pool_map_returns _ _ (Hok _ Hall)) as (results & Hrun & Hfrom).
    pose proof (Forall2_length _ _ _ Hfrom) as Hlen.
    rewrite Hrun. simpl. exists (firstn 3 results).
    rewrite <- Hlen. split; [reflexivity|].
    split; [apply Forall2_take; exact Hfrom|].
    split; [rewrite length_firstn, <- Hlen; reflexivity|].
    apply Forall_take.
    clear -Hfrom. induction Hfrom as [|line h lines results Hline _ IH]; constructor;
      [|exact IH].
    destruct (existsb (fun c => (0xD800 <=? c) && (c <=? 0xDFFF))%N line) eqn:Hsur.
    + rewrite (cpu_heavy_surrogate line 20000 Hsur) in Hline. discriminate.
    + destruct (cpu_heavy_returns line 20000 Hsur) as (h' & Hrun' & Hshape); [lia|].
      rewrite Hrun' in Hline. injection Hline as <-. exact Hshape.
  - intros before after line Hbefore Hsur. unfold App.cpu_processes.
    rewrite (pool_map_raises _ before after line UnicodeEncodeError (Hok _ Hbefore)
               (cpu_heavy_surrogate line 20000 Hsur)).
    reflexivity.
Qed.

Lemma cpu_processes_response_witness :
  (exists h1 h2 h3,
      App.cpu_processes [lit "a"; lit "b"; lit "c"; lit "d"] = Ret ([h1; h2; h3], 4%nat)
      /\ App.cpu_heavy (lit "a") 20000 = Ret h1
      /\ App.cpu_heavy (lit "b") 20000 = Ret h2
      /\ App.cpu_heavy (lit "c") 20000 = Ret h3)
  /\ App.cpu_processes [lit "a"; [0xD800%N]; lit "c"] = Raise UnicodeEncodeError.
Proof.
  split.
  - destruct (proj1 cpu_processes_response [lit "a"; lit "b"; lit "c"; lit "d"])
      as (hashes & Hrun & Hfrom & _).
    + repeat constructor.
    + cbn [firstn] in Hfrom.
      inversion Hfrom as [|? h1 ? r1 Ha H1]; subst.
      inversion H1 as [|? h2 ? r2 Hb H2]; subst.
      inversion H2 as [|? h3 ? r3 Hc H3]; subst.
      inversion H3; subst.
      exists h1, h2, h3.
      split; [exact Hrun|]. split; [exact Ha|]. split; [exact Hb|exact Hc].
  - apply (proj2 cpu_processes_response [lit "a"] [lit "c"] [0xD800%N]).
    + repeat constructor.
    + reflexivity.
Defined.

(** ** The Redis cache: keys, entries and the limiter *)

Section RedisMore.
Implicit Types (srv : Redis.server) (key k : str).

Lemma lookup_same k srv srv' :
  Redis.db srv' !! k = Redis.db srv !! k ->
  Redis.clock srv' = Redis.clock srv ->
  Redis.lookup k srv' = Redis.lookup k srv.
Proof. unfold Redis.lookup. intros -> ->. reflexivity. Qed.

Lemma lookup_store_ne key k e srv :
  k <> key -> Redis.lookup k (Redis.store key e srv) = Redis.lookup k srv.
Proof.
  intros Hne. apply lookup_same; [|reflexivity].
  simpl. apply lookup_insert_ne. congruence.
Qed.

Lemma lookup_elapse_store key e srv ms :
  Redis.lookup key (Redis.elapse ms (Redis.store key e srv))
  = match Redis.expire_at e with
    | Some t => if t <=? Redis.clock srv + ms then None else Some e
    | None => Some e
    end.
Proof.
  unfold Redis.lookup, Redis.elapse, Redis.store. simpl.
  rewrite lookup_insert_eq. reflexivity.
Qed.

(** [allow] writes at its own key only, and does not move the clock. *)
Lemma allow_frame key limit window srv k :
  k <> key ->
  Redis.lookup k (RedisCache.allow key limit window srv).2 = Redis.lookup k srv.
Proof.
  intros Hne.
  unfold RedisCache.allow, St.bind, Redis.client.incr, Redis.INCR,
    Redis.client.expire, Redis.EXPIRE.
  destruct (Redis.lookup key srv) as [e|].
  - destruct (Redis.to_ll (Redis.value e)) as [n|]; [|reflexivity].
    destruct (Redis.LLONG_MAX <=? n); [reflexivity|].
    destruct (n + 1 =? 1); simpl.
    + destruct (Redis.deadline_fits _ _); simpl;
        [destruct (Redis.lookup key _); simpl|];
        rewrite ?lookup_store_ne by exact Hne; reflexivity.
    + apply lookup_store_ne, Hne.
  - simpl. destruct (Redis.deadline_fits _ _); simpl;
      [destruct (Redis.lookup key _); simpl|];
      rewrite ?lookup_store_ne by exact Hne; reflexivity.
Qed.

(** [process_line] through [RedisCache] writes at the key of its line
    only. *)
Lemma redis_process_line_frame (parser : BaseParser) (ttl : Z) (line k : str)
      (st : LogAnalyser.state Redis.server) :
  (forall key, line_cache_key line = Ret key -> k <> key) ->
  Redis.lookup k
    (LogAnalyser.backend
       (LogAnalyser.process_line
          (LogAnalyser.Build parser (Some RedisCache.cache) ttl) line st).2)
  = Redis.lookup k (LogAnalyser.backend st).
Proof.
  intros Hne.
  set (self := LogAnalyser.Build parser (Some RedisCache.cache) ttl).
  destruct (line_cache_key line) as [key|e] eqn:Hk.
  - specialize (Hne key eq_refl).
    pose proof (get_returns key (LogAnalyser.backend st)) as Hget.
    destruct (Redis.lookup key (LogAnalyser.backend st)) as [en|].
    + rewrite (process_line_hit self _ line key st _ _ eq_refl Hk Hget). reflexivity.
    + rewrite (process_line_miss self _ line key st _ eq_refl Hk Hget).
      destruct (LogAnalyser.parser self line) as [[s|]|e]; [| |reflexivity].
      * simpl. unfold RedisCache.set, Redis.client.setex, Redis.SETEX.
        destruct ((ttl <=? 0) || negb (Redis.ms_fit ttl)); simpl; [reflexivity|].
        apply lookup_store_ne, Hne.
      * reflexivity.
  - unfold LogAnalyser.process_line. simpl.
    unfold St.bind, lift. rewrite Hk. reflexivity.
Qed.

Lemma key_not_in_limiter_names (line key suffix : str) :
  line_cache_key line = Ret key -> key <> lit "ratelimit:" ++ suffix.
Proof.
  unfold line_cache_key.
  destruct (Hashlib.encode line) as [bytes|e]; simpl; [|discriminate].
  intros H. injection H as <-. discriminate.
Qed.

End RedisMore.

(** X9: the keys of the cached levels and the keys of the limiter
    never meet. No line has a key that starts with ["ratelimit:"]; so
    classifying a line through [RedisCache] leaves every limiter
    counter and its deadline as they were, and a call of [allow] on a
    limiter key leaves what [get] returns for the key of any line as it
    was. *)
Theorem cache_and_limiter_keys_apart :
  (forall line key suffix : str,
      line_cache_key line = Ret key -> key <> lit "ratelimit:" ++ suffix)
  /\ (forall (parser : BaseParser) (ttl : Z) (line suffix : str)
             (st : LogAnalyser.state Redis.server),
      let st' := (LogAnalyser.process_line
                    (LogAnalyser.Build parser (Some RedisCache.cache) ttl) line st).2 in
      Redis.counter (lit "ratelimit:" ++ suffix) (LogAnalyser.backend st')
      = Redis.counter (lit "ratelimit:" ++ suffix) (LogAnalyser.backend st)
      /\ Redis.deadline (lit "ratelimit:" ++ suffix) (LogAnalyser.backend st')
         = Redis.deadline (lit "ratelimit:" ++ suffix) (LogAnalyser.backend st))
  /\ (forall (line key suffix : str) (limit window : Z) (srv : Redis.server),
      line_cache_key line = Ret key ->
      (RedisCache.get key
         (RedisCache.allow (lit "ratelimit:" ++ suffix) limit window srv).2).1
      = (RedisCache.get key srv).1).
Proof.
  split; [|split].
  - exact key_not_in_limiter_names.
  - intros parser ttl line suffix st st'. unfold Redis.counter, Redis.deadline.
    unfold st'. rewrite redis_process_line_frame; [split; reflexivity|].
    intros key Hk Heq. exact (key_not_in_limiter_names _ _ _ Hk (eq_sym Heq)).
  - intros line key suffix limit window srv Hk.
    rewrite !get_returns. simpl.
    rewrite allow_frame; [reflexivity|].
    exact (key_not_in_limiter_names _ _ _ Hk).
Qed.

Lemma cache_and_limiter_keys_apart_witness :
  exists key,
    line_cache_key (lit "2024-01-01 svcA INFO start") = Ret key
    /\ key <> App.RATE_KEY
    /\ (RedisCache.get key
          (RedisCache.allow App.RATE_KEY App.RATE_LIMIT App.RATE_WINDOW Redis.empty).2).1
       = Ret None.
Proof.
  destruct (line_cache_key (lit "2024-01-01 svcA INFO start")) as [key|e] eqn:Hk;
    [|vm_compute in Hk; discriminate].
  exists key. split; [reflexivity|]. split.
  - exact (proj1 cache_and_limiter_keys_apart _ key (lit "log_api:/batch") Hk).
  - exact (proj2 (proj2 cache_and_limiter_keys_apart) _ key (lit "log_api:/batch")
                 App.RATE_LIMIT App.RATE_WINDOW Redis.empty Hk).
Defined.

(** X10: [RedisCache.set] with a ttl that is positive and whose
    milliseconds and deadline fit in 64 bits returns; [get] then
    returns the value while less than [ttl] seconds have passed and
    nothing once more than [ttl] seconds have passed, and what [get]
    returns for any other key is not changed. With a ttl of zero or
    less, or one whose milliseconds do not fit, [set] raises and stores
    nothing. *)
Theorem redis_set_then_get (key v : str) (ttl : Z) (srv : Redis.server) :
  (0 < ttl ->
   Redis.deadline_fits (Redis.clock srv) ttl = true ->
   exists srv',
     RedisCache.set key (Some v) ttl srv = (Ret tt, srv')
     /\ (forall ms, 0 <= ms < 1000 * ttl ->
                    (RedisCache.get key (Redis.elapse ms srv')).1 = Ret (Some v))
     /\ (forall ms, 1000 * ttl < ms ->
                    (RedisCache.get key (Redis.elapse ms srv')).1 = Ret None)
     /\ (forall k ms, k <> key ->
                      (RedisCache.get k (Redis.elapse ms srv')).1
                      = (RedisCache.get k (Redis.elapse ms srv)).1))
  /\ (ttl <= 0 \/ Redis.ms_fit ttl = false ->
      RedisCache.set key (Some v) ttl srv = (Raise ResponseError, srv)).
Proof.
  split.
  - intros Httl Hfit.
    unfold RedisCache.set, Redis.client.setex.
    rewrite (setex_accepted _ _ _ _ Httl (deadline_fits_ms _ _ Hfit)).
    eexists. split; [reflexivity|]. split; [|split].
    + intros ms Hms. rewrite get_returns, lookup_elapse_store. simpl.
      destruct (Z.leb_spec (Redis.clock srv + 1000 * ttl) (Redis.clock srv + ms));
        [lia|reflexivity].
    + intros ms Hms. rewrite get_returns, lookup_elapse_store. simpl.
      destruct (Z.leb_spec (Redis.clock srv + 1000 * ttl) (Redis.clock srv + ms));
        [reflexivity|lia].
    + intros k ms Hne. rewrite !get_returns. simpl. f_equal. f_equal. f_equal.
      apply lookup_same; [|reflexivity].
      simpl. apply lookup_insert_ne. congruence.
  - intros Hbad. unfold RedisCache.set, Redis.client.setex.
    apply setex_refused, Hbad.
Qed.

Lemma redis_set_then_get_witness :
  (exists srv',
      RedisCache.set (lit "k") (Some INFO) 60 Redis.empty = (Ret tt, srv')
      /\ (RedisCache.get (lit "k") (Redis.elapse 59999 srv')).1 = Ret (Some INFO)
      /\ (RedisCache.get (lit "k") (Redis.elapse 60001 srv')).1 = Ret None)
  /\ RedisCache.set (lit "k") (Some INFO) 0 Redis.empty
     = (Raise ResponseError, Redis.empty)
  /\ RedisCache.set (lit "k") (Some INFO) (2 ^ 63 - 1) Redis.empty
     = (Raise ResponseError, Redis.empty).
Proof.
  split; [|split].
  - destruct (proj1 (redis_set_then_get (lit "k") INFO 60 Redis.empty))
      as (srv' & Hset & Hlive & Hgone & _); [lia|reflexivity|].
    exists srv'. split; [exact Hset|]. split; [apply Hlive; lia|apply Hgone; lia].
  - apply (proj2 (redis_set_then_get (lit "k") INFO 0 Redis.empty)). left. lia.
  - apply (proj2 (redis_set_then_get (lit "k") INFO (2 ^ 63 - 1) Redis.empty)).
    right. reflexivity.
Defined.

Section LimiterFacts.
Implicit Types (srv : Redis.server) (key : str).

Lemma repeat_allow_from key limit window (n : nat) :
  forall (m t : Z) srv,
    1 <= m -> Redis.clock srv < t -> m + Z.of_nat n < Redis.LLONG_MAX ->
    repeat_call n (RedisCache.allow key limit window)
                (Redis.store key (Redis.Entry (Redis.RInt m) (Some t)) srv)
    = (Ret (map (fun i => m + Z.of_nat i + 1 <=? limit) (seq 0 n)),
       Redis.store key (Redis.Entry (Redis.RInt (m + Z.of_nat n)) (Some t)) srv).
Proof.
  induction n as [|n IH]; intros m t srv Hm Ht Hmax.
  - simpl. rewrite Z.add_0_r. reflexivity.
  - cbn [repeat_call]. unfold St.bind at 1.
    rewrite (allow_again key limit window srv m t) by lia.
    unfold St.bind at 1. rewrite (IH (m + 1) t srv) by lia.
    cbn [seq map]. unfold ret.
    rewrite <- seq_shift, map_map.
    replace (m + Z.of_nat 0 + 1) with (m + 1) by lia.
    replace (m + Z.of_nat (S n)) with (m + 1 + Z.of_nat n) by lia.
    do 3 f_equal. apply map_ext. intros i. f_equal. lia.
Qed.

Lemma allowed_count (limit : Z) (n : nat) :
  length (List.filter (fun b : bool => b)
                      (map (fun i => Z.of_nat i + 1 <=? limit) (seq 0 n)))
  = Nat.min n (Z.to_nat limit).
Proof.
  induction n as [|n IH]; [reflexivity|].
  rewrite seq_S, map_app, List.filter_app, length_app, IH.
  cbn [map List.filter Nat.add].
  destruct (Z.leb_spec (Z.of_nat n + 1) limit); cbn [length]; lia.
Qed.

End LimiterFacts.

(** X11: on a fresh key and with a positive window whose milliseconds
    and deadline fit in 64 bits, the [i]-th of [n] calls of [allow] in
    a row returns whether [i <= limit]; so exactly [min n limit] of
    them are allowed (none when the limit is zero or negative). *)
Theorem limiter_allows_limit_calls (key : str) (limit window : Z) (n : nat)
        (srv : Redis.server) :
  Redis.lookup key srv = None ->
  0 < window ->
  Redis.deadline_fits (Redis.clock srv) window = true ->
  Z.of_nat n < Redis.LLONG_MAX ->
  exists rs srv',
    repeat_call n (RedisCache.allow key limit window) srv = (Ret rs, srv')
    /\ rs = map (fun i => Z.of_nat i + 1 <=? limit) (seq 0 n)
    /\ length (List.filter (fun b : bool => b) rs) = Nat.min n (Z.to_nat limit).
Proof.
  intros Hfresh Hwindow Hfit Hmax.
  assert (Hzero : Redis.counter key srv = Some 0)
    by (unfold Redis.counter; rewrite Hfresh; reflexivity).
  destruct n as [|n].
  - exists [], srv. repeat split.
  - cbn [repeat_call]. unfold St.bind at 1.
    rewrite (allow_step _ _ _ _ 0 Hzero) by (intros; assumption || lia).
    change (0 + 1 =? 1) with true. cbn iota.
    unfold St.bind at 1.
    rewrite (repeat_allow_from key limit window n 1 _ srv) by lia.
    eexists _, _. split; [reflexivity|].
    assert (Hrs : (0 + 1 <=? limit)
                  :: map (fun i => 1 + Z.of_nat i + 1 <=? limit) (seq 0 n)
                  = map (fun i => Z.of_nat i + 1 <=? limit) (seq 0 (S n))).
    { cbn [seq map]. f_equal.
      rewrite <- seq_shift, map_map. apply map_ext. intros i. f_equal. lia. }
    rewrite Hrs. split; [reflexivity|apply allowed_count].
Qed.

Lemma limiter_allows_limit_calls_witness :
  exists rs srv',
    repeat_call 8 (RedisCache.allow App.RATE_KEY 3 App.RATE_WINDOW) Redis.empty = (Ret rs, srv')
    /\ rs = [true; true; true; false; false; false; false; false]
    /\ length (List.filter (fun b : bool => b) rs) = 3%nat.
Proof.
  destruct (limiter_allows_limit_calls App.RATE_KEY 3 App.RATE_WINDOW 8 Redis.empty)
    as (rs & srv' & Hrun & Hrs & Hcount);
    [reflexivity|reflexivity|reflexivity|reflexivity|].
  exists rs, srv'. split; [exact Hrun|]. split; [exact Hrs|exact Hcount].
Defined.

Lemma lookup_store_dead (key : str) (v : Redis.robj) (t : Z) (srv : Redis.server) :
  t <= Redis.clock srv ->
  Redis.lookup key (Redis.store key (Redis.Entry v (Some t)) srv) = None.
Proof.
  intros Ht. unfold Redis.lookup, Redis.store. simpl.
  rewrite lookup_insert_eq. simpl.
  destruct (Z.leb_spec t (Redis.clock srv)); [reflexivity|lia].
Qed.

(** X12: with a window of zero or less (one that EXPIRE accepts: its
    milliseconds fit in 64 bits) the limiter does not limit: the
    deadline it sets has passed at once, every call finds the key
    absent, counts 1, and is allowed whenever [1 <= limit]. *)
Theorem limiter_without_window (key : str) (limit window : Z) (n : nat)
        (srv : Redis.server) :
  Redis.lookup key srv = None ->
  window <= 0 ->
  Redis.deadline_fits (Redis.clock srv) window = true ->
  exists srv',
    repeat_call n (RedisCache.allow key limit window) srv
    = (Ret (repeat (1 <=? limit) n), srv')
    /\ Redis.lookup key srv' = None.
Proof.
  intros Hfresh Hwindow Hfit. revert srv Hfresh Hfit.
  induction n as [|n IH]; intros srv Hfresh Hfit.
  - exists srv. split; [reflexivity|exact Hfresh].
  - assert (Hzero : Redis.counter key srv = Some 0)
      by (unfold Redis.counter; rewrite Hfresh; reflexivity).
    cbn [repeat_call]. unfold St.bind at 1.
    rewrite (allow_step _ _ _ _ 0 Hzero) by (intros; assumption || reflexivity).
    change (0 + 1 =? 1) with true. cbn iota.
    destruct (IH (Redis.store key
                    (Redis.Entry (Redis.RInt (0 + 1))
                                 (Some (Redis.clock srv + 1000 * window))) srv))
      as (srv' & Hrun & Hgone); [apply lookup_store_dead; lia|exact Hfit|].
    unfold St.bind. rewrite Hrun. exists srv'. split; [reflexivity|exact Hgone].
Qed.

Lemma limiter_without_window_witness :
  exists srv',
    repeat_call 4 (RedisCache.allow App.RATE_KEY 1 0) Redis.empty
    = (Ret [true; true; true; true], srv')
    /\ Redis.lookup App.RATE_KEY srv' = None.
Proof.
  apply (limiter_without_window App.RATE_KEY 1 0 4 Redis.empty);
    [reflexivity|lia|reflexivity].
Defined.

Section WaitFacts.
Implicit Types (srv : Redis.server) (key : str) (naps : list Z).

Lemma wait_fresh key limit window naps srv :
  Redis.lookup key srv = None ->
  1 <= limit ->
  Redis.deadline_fits (Redis.clock srv) window = true ->
  (App.wait_allowed RedisCache.cache Redis.elapse key limit window naps srv).1 = Ret true.
Proof.
  intros Hfresh Hlimit Hfit.
  assert (Hzero : Redis.counter key srv = Some 0)
    by (unfold Redis.counter; rewrite Hfresh; reflexivity).
  destruct naps; cbn [App.wait_allowed]; unfold St.bind;
    change (BaseCache.allow RedisCache.cache) with RedisCache.allow;
    rewrite (allow_step _ _ _ _ 0 Hzero) by (intros; assumption || reflexivity);
    destruct (Z.leb_spec (0 + 1) limit); try lia; reflexivity.
Qed.

Lemma wait_redis key limit window naps :
  forall srv n t,
    1 <= limit ->
    Redis.counter key srv = Some n ->
    Redis.deadline key srv = Some t ->
    Forall (fun ms => 0 <= ms) naps ->
    t - Redis.clock srv < fold_right Z.add 0 naps ->
    Redis.deadline_fits (Redis.clock srv + fold_right Z.add 0 naps) window = true ->
    n + Z.of_nat (length naps) + 1 < Redis.LLONG_MAX ->
    (App.wait_allowed RedisCache.cache Redis.elapse key limit window naps srv).1 = Ret true.
Proof.
  induction naps as [|ms naps IH]; intros srv n t Hlimit Hn Hd Hpos Hsum Hfit Hmax.
  - exfalso. unfold Redis.deadline in Hd.
    destruct (Redis.lookup key srv) as [e|] eqn:Hl; [|discriminate].
    pose proof (lookup_live _ _ _ Hl) as Hlive. rewrite Hd in Hlive.
    simpl in Hsum. lia.
  - apply Forall_cons in Hpos. destruct Hpos as [Hms Hpos].
    assert (Hrest : 0 <= fold_right Z.add 0 naps).
    { clear -Hpos. induction Hpos; simpl; lia. }
    cbn [fold_right] in Hsum, Hfit.
    cbn [App.wait_allowed]. unfold St.bind at 1.
    change (BaseCache.allow RedisCache.cache) with RedisCache.allow.
    cbn [length] in Hmax.
    rewrite (allow_step _ _ _ _ n Hn)
      by (lia || (intros _; eapply deadline_fits_earlier; [|exact Hfit]; lia)).
    destruct (Z.leb_spec (n + 1) limit); [reflexivity|].
    rewrite Hd. destruct (Z.eqb_spec (n + 1) 1); [lia|].
    destruct (Z.leb_spec t (Redis.clock srv + ms)) as [Hpast|Hlive].
    + apply wait_fresh; [|exact Hlimit|].
      * rewrite lookup_elapse_store. simpl.
        destruct (Z.leb_spec t (Redis.clock srv + ms)); [reflexivity|lia].
      * eapply deadline_fits_earlier; [|exact Hfit]. simpl. lia.
    + apply (IH _ (n + 1) t Hlimit).
      * unfold Redis.counter. rewrite lookup_elapse_store. simpl.
        destruct (Z.leb_spec t (Redis.clock srv + ms)); [lia|reflexivity].
      * unfold Redis.deadline. rewrite lookup_elapse_store. simpl.
        destruct (Z.leb_spec t (Redis.clock srv + ms)); [lia|reflexivity].
      * exact Hpos.
      * simpl. lia.
      * eapply deadline_fits_earlier; [|exact Hfit]. simpl. lia.
      * lia.
Qed.

End WaitFacts.

(** X13: the loop on [allow] at the head of the batch endpoints ends.
    With the no-op cache the first call is allowed and nothing is
    waited for. With [RedisCache], a limit of at least 1, a window that
    EXPIRE accepts throughout, and a counter that has a deadline, the
    call is allowed at the latest when the sleeps add up to more than
    the time left until that deadline (no other client writing the key
    meanwhile). *)
Theorem wait_ends :
  (forall S (pass : Z -> S -> S) (key : str) (limit window : Z) (naps : list Z) (s : S),
      App.wait_allowed NoopCache.cache pass key limit window naps s = (Ret true, s))
  /\ (forall (key : str) (limit window : Z) (naps : list Z) (srv : Redis.server) (n t : Z),
      1 <= limit ->
      Redis.counter key srv = Some n ->
      Redis.deadline key srv = Some t ->
      Forall (fun ms => 0 <= ms) naps ->
      t - Redis.clock srv < fold_right Z.add 0 naps ->
      Redis.deadline_fits (Redis.clock srv + fold_right Z.add 0 naps) window = true ->
      n + Z.of_nat (length naps) + 1 < Redis.LLONG_MAX ->
      (App.wait_allowed RedisCache.cache Redis.elapse key limit window naps srv).1
      = Ret true).
Proof.
  split.
  - intros S pass key limit window naps s. destruct naps; reflexivity.
  - intros key limit window naps. apply wait_redis.
Qed.

Lemma wait_ends_witness :
  let busy := (repeat_call 150 (RedisCache.allow App.RATE_KEY App.RATE_LIMIT App.RATE_WINDOW)
                           Redis.empty).2 in
  (RedisCache.allow App.RATE_KEY App.RATE_LIMIT App.RATE_WINDOW busy).1 = Ret false
  /\ (App.wait_allowed RedisCache.cache Redis.elapse
        App.RATE_KEY App.RATE_LIMIT App.RATE_WINDOW (repeat 50 201) busy).1 = Ret true.
Proof.
  intros busy. split; [vm_compute; reflexivity|].
  apply (proj2 wait_ends App.RATE_KEY App.RATE_LIMIT App.RATE_WINDOW (repeat 50 201)
               busy 150 10000).
  - vm_compute. discriminate.
  - vm_compute. reflexivity.
  - vm_compute. reflexivity.
  - apply List.Forall_forall. intros ms Hin. apply repeat_spec in Hin. subst ms. lia.
  - vm_compute. reflexivity.
  - vm_compute. reflexivity.
  - vm_compute. reflexivity.
Defined.

(** X14: the limiter rests on the deadline of its key. On a key that
    holds a count at or above the limit and has no deadline, the loop
    is never let through, however long it sleeps, and each failed call
    adds one more to the count. *)
Theorem wait_never_ends_without_deadline (key : str) (limit window : Z) (naps : list Z) :
  forall (srv : Redis.server) (v : Redis.robj) (n : Z),
    Redis.lookup key srv = Some (Redis.Entry v None) ->
    Redis.to_ll v = Some n ->
    1 <= limit <= n ->
    n + Z.of_nat (length naps) + 1 < Redis.LLONG_MAX ->
    exists srv',
      App.wait_allowed RedisCache.cache Redis.elapse key limit window naps srv
      = (Ret false, srv')
      /\ Redis.counter key srv' = Some (n + Z.of_nat (length naps) + 1)
      /\ Redis.deadline key srv' = None.
Proof.
  induction naps as [|ms naps IH]; intros srv v n Hl Hv Hlimit Hmax;
    assert (Hn : Redis.counter key srv = Some n)
      by (unfold Redis.counter; rewrite Hl; exact Hv);
    assert (Hd : Redis.deadline key srv = None)
      by (unfold Redis.deadline; rewrite Hl; reflexivity);
    cbn [App.wait_allowed]; unfold St.bind at 1;
    change (BaseCache.allow RedisCache.cache) with RedisCache.allow;
    cbn [length] in Hmax;
    rewrite (allow_step _ _ _ _ n Hn) by lia;
    destruct (Z.leb_spec (n + 1) limit); try lia;
    rewrite Hd; destruct (Z.eqb_spec (n + 1) 1); try lia.
  - eexists. split; [reflexivity|].
    destruct (counter_store key (n + 1) None srv I) as [Hc Hdl].
    rewrite Hc, Hdl. split; [f_equal; simpl; lia|reflexivity].
  - destruct (IH (Redis.elapse ms
                    (Redis.store key (Redis.Entry (Redis.RInt (n + 1)) None) srv))
                 (Redis.RInt (n + 1)) (n + 1))
      as (srv' & Hrun & Hc & Hdl);
      [apply lookup_elapse_store|reflexivity|lia|lia|].
    exists srv'. split; [exact Hrun|]. split; [|exact Hdl].
    rewrite Hc. f_equal. cbn [length]. lia.
Qed.

Lemma wait_never_ends_without_deadline_witness :
  let stuck := Redis.store App.RATE_KEY (Redis.Entry (Redis.RInt 100) None) Redis.empty in
  exists srv',
    App.wait_allowed RedisCache.cache Redis.elapse
      App.RATE_KEY App.RATE_LIMIT App.RATE_WINDOW (repeat 50 400) stuck
    = (Ret false, srv')
    /\ Redis.counter App.RATE_KEY srv' = Some 501.
Proof.
  intros stuck.
  destruct (wait_never_ends_without_deadline App.RATE_KEY App.RATE_LIMIT App.RATE_WINDOW
              (repeat 50 400) stuck (Redis.RInt 100) 100)
    as (srv' & Hrun & Hc & _).
  - reflexivity.
  - reflexivity.
  - unfold App.RATE_LIMIT. lia.
  - vm_compute. reflexivity.
  - exists srv'. split; [exact Hrun|exact Hc].
Defined.

(** ** The analyser and its cache *)

(** X15: the no-op cache never spares a call of the parser: [n] calls
    of [process_line] on the same line call the parser [n] times and
    return its level each time. *)
Theorem noop_cache_always_parses {S} (parser : BaseParser) (ttl : Z) (line key : str)
        (lvl : level) (n : nat) (st : LogAnalyser.state S) :
  line_cache_key line = Ret key ->
  parser line = Ret lvl ->
  exists st',
    repeat_call n (LogAnalyser.process_line
                     (LogAnalyser.Build parser (Some NoopCache.cache) ttl) line) st
    = (Ret (repeat lvl n), st')
    /\ filter is_parse (LogAnalyser.trace st')
       = filter is_parse (LogAnalyser.trace st) ++ repeat (ParseLevel line) n
    /\ LogAnalyser.backend st' = LogAnalyser.backend st.
Proof.
  intros Hk Hp. revert st. induction n as [|n IH]; intros st.
  - exists st. simpl. rewrite app_nil_r. repeat split.
  - cbn [repeat_call]. unfold St.bind at 1.
    rewrite (noop_process_line parser ttl line key lvl st Hk Hp).
    destruct (IH (LogAnalyser.State (LogAnalyser.backend st) (LogAnalyser.counts st)
                    (LogAnalyser.trace st
                     ++ [CacheGet key; ParseLevel line; CacheSet key lvl ttl])))
      as (st' & Hrun & Htrace & Hback).
    unfold St.bind. rewrite Hrun. exists st'. split; [reflexivity|].
    split; [|exact Hback].
    rewrite Htrace. simpl. rewrite filter_app. simpl.
    rewrite <- app_assoc. reflexivity.
Qed.

Lemma noop_cache_always_parses_witness :
  exists st',
    repeat_call 3 (LogAnalyser.process_line plain_noop (lit "t svc WARNING disk"))
                (LogAnalyser.init tt)
    = (Ret [Some WARNING; Some WARNING; Some WARNING], st')
    /\ filter is_parse (LogAnalyser.trace st')
       = repeat (ParseLevel (lit "t svc WARNING disk")) 3.
Proof.
  destruct (line_cache_key (lit "t svc WARNING disk")) as [key|e] eqn:Hk;
    [|vm_compute in Hk; discriminate].
  destruct (noop_cache_always_parses (S:=unit) PlainTextParser.parse_level 60
              (lit "t svc WARNING disk") key (Some WARNING) 3 (LogAnalyser.init tt) Hk)
    as (st' & Hrun & Htrace & _); [vm_compute; reflexivity|].
  exists st'. split; [exact Hrun|exact Htrace].
Defined.

(** X16: with a cache, a line that holds a surrogate code point makes
    [process_line] raise [UnicodeEncodeError] before it calls the cache
    or the parser; without a cache the same line is parsed. *)
Theorem surrogate_line_needs_no_cache {S} (self : LogAnalyser.t S) (line : str)
        (st : LogAnalyser.state S) :
  existsb (fun c => (0xD800 <=? c) && (c <=? 0xDFFF))%N line = true ->
  (forall c, LogAnalyser.cache self = Some c ->
             LogAnalyser.process_line self line st = (Raise UnicodeEncodeError, st))
  /\ (LogAnalyser.cache self = None ->
      (LogAnalyser.process_line self line st).1 = LogAnalyser.parser self line).
Proof.
  intros Hsur. split.
  - intros c Hc. unfold LogAnalyser.process_line. rewrite Hc.
    unfold St.bind, lift.
    rewrite (line_cache_key_surrogate line Hsur). reflexivity.
  - intros Hc. rewrite (process_line_no_cache _ _ _ Hc). reflexivity.
Qed.

Lemma surrogate_line_needs_no_cache_witness :
  let line := lit "t svc ERROR " ++ [0xD800%N] in
  LogAnalyser.process_line plain_noop line (LogAnalyser.init tt)
  = (Raise UnicodeEncodeError, LogAnalyser.init tt)
  /\ (LogAnalyser.process_line (LogAnalyser.Build PlainTextParser.parse_level None 60)
                               line (LogAnalyser.init tt)).1
     = Ret (Some ERROR).
Proof.
  intros line. split.
  - apply (proj1 (surrogate_line_needs_no_cache plain_noop line (LogAnalyser.init tt)
                    eq_refl) NoopCache.cache).
    reflexivity.
  - rewrite (proj2 (surrogate_line_needs_no_cache
                      (LogAnalyser.Build PlainTextParser.parse_level None 60)
                      line (LogAnalyser.init tt) eq_refl) eq_refl).
    vm_compute. reflexivity.
Defined.

(** What a call through [RedisCache] returned is what the store holds
    for the line afterwards. *)
Lemma redis_returned_is_stored (parser : BaseParser) (ttl : Z) (line key name : str)
      (st st1 : LogAnalyser.state Redis.server) :
  line_cache_key line = Ret key ->
  LogAnalyser.process_line (LogAnalyser.Build parser (Some RedisCache.cache) ttl) line st
  = (Ret (Some name), st1) ->
  exists e, Redis.lookup key (LogAnalyser.backend st1) = Some e
            /\ Redis.repr (Redis.value e) = name.
Proof.
  intros Hk Hrun.
  set (self := LogAnalyser.Build parser (Some RedisCache.cache) ttl) in *.
  pose proof (get_returns key (LogAnalyser.backend st)) as Hget.
  destruct (Redis.lookup key (LogAnalyser.backend st)) as [e|] eqn:Hl.
  - rewrite (process_line_hit self _ line key st _ _ eq_refl Hk Hget) in Hrun.
    injection Hrun as <- <-. exists e. split; [exact Hl|reflexivity].
  - rewrite (process_line_miss self _ line key st _ eq_refl Hk Hget) in Hrun.
    destruct (LogAnalyser.parser self line) as [[s|]|e]; [| |discriminate].
    + simpl in Hrun. unfold RedisCache.set, Redis.client.setex, Redis.SETEX in Hrun.
      destruct (Z.leb_spec ttl 0); [discriminate|].
      destruct (Redis.ms_fit ttl); [|discriminate].
      injection Hrun as <- <-. simpl.
      eexists. split; [apply lookup_store; simpl; lia|reflexivity].
    + discriminate.
Qed.

(** X17: the key of a line does not tell the mode it was parsed in, so
    the level that one mode left in the cache is what [parse] returns
    for the same line in any other mode, for as long as the entry
    lives, and the parser of that mode is not called. *)
Theorem cache_is_shared_across_modes (mode1 mode2 line key name : str)
        (st st1 : LogAnalyser.state Redis.server) (ms : Z) :
  line_cache_key line = Ret key ->
  App.parse RedisCache.cache mode1 line st = (Ret (Some name), st1) ->
  0 <= ms ->
  (forall t, Redis.deadline key (LogAnalyser.backend st1) = Some t ->
             Redis.clock (LogAnalyser.backend st1) + ms < t) ->
  App.parse RedisCache.cache mode2 line
    (LogAnalyser.State (Redis.elapse ms (LogAnalyser.backend st1))
                       (LogAnalyser.counts st1) (LogAnalyser.trace st1))
  = (Ret (Some name),
     LogAnalyser.State (Redis.elapse ms (LogAnalyser.backend st1))
                       (LogAnalyser.counts st1)
                       (LogAnalyser.trace st1 ++ [CacheGet key])).
Proof.
  unfold App.parse. intros Hk Hrun Hms Hdl.
  destruct (redis_returned_is_stored _ _ _ _ _ _ _ Hk Hrun) as (e & Hl & <-).
  set (later := LogAnalyser.State (Redis.elapse ms (LogAnalyser.backend st1))
                                  (LogAnalyser.counts st1) (LogAnalyser.trace st1)).
  apply (process_line_hit
           (LogAnalyser.Build (App.parser_of mode2) (Some RedisCache.cache) 60)
           RedisCache.cache line key later _ _ eq_refl Hk).
  simpl. rewrite get_returns.
  rewrite (lookup_elapse key e _ ms Hms Hl); [reflexivity|].
  intros t Ht. apply Hdl. unfold Redis.deadline. rewrite Hl. exact Ht.
Qed.

Lemma cache_is_shared_across_modes_witness :
  let line := lit "2024-01-01 svcA INFO start" in
  let st1 := (App.parse RedisCache.cache (lit "plain") line (LogAnalyser.init Redis.empty)).2 in
  JSONTextParser.parse_level line = Raise JSONDecodeError
  /\ (App.parse RedisCache.cache (lit "json") line
        (LogAnalyser.State (Redis.elapse 1000 (LogAnalyser.backend st1))
                           (LogAnalyser.counts st1) (LogAnalyser.trace st1))).1
     = Ret (Some INFO).
Proof.
  intros line st1. split; [vm_compute; reflexivity|].
  destruct (line_cache_key line) as [key|e] eqn:Hk; [|vm_compute in Hk; discriminate].
  rewrite (cache_is_shared_across_modes (lit "plain") (lit "json") line key INFO
             (LogAnalyser.init Redis.empty) st1 1000 Hk).
  - reflexivity.
  - vm_compute. reflexivity.
  - lia.
  - vm_compute in Hk. injection Hk as <-. vm_compute.
    intros t Ht. injection Ht as <-. reflexivity.
Defined.



(** ** The tally, again *)

Lemma count_levels_from (levels : list level) (lvl : level) :
  forall counts : gmap level nat,
    fold_left (fun counts level =>
                 <[level := (default 0 (counts !! level) + 1)%nat]> counts)
              levels counts !! lvl
    = match length (filter (fun l => l = lvl) levels) with
      | O => counts !! lvl
      | Datatypes.S k => Some (default 0 (counts !! lvl) + Datatypes.S k)%nat
      end.
Proof.
  induction levels as [|l levels IH]; intros counts; [reflexivity|].
  cbn [fold_left]. rewrite IH.
  destruct (decide (l = lvl)) as [->|Hne].
  - rewrite filter_cons_True by reflexivity. rewrite lookup_insert_eq.
    cbn [length default].
    destruct (length (filter (fun l => l = lvl) levels)); unfold id; f_equal; lia.
  - rewrite filter_cons_False by exact Hne. rewrite lookup_insert_ne by exact Hne.
    reflexivity.
Qed.

(** X19: the tally that [batch] and [batch_threads] build maps each
    level to the number of times it occurs among the collected levels,
    and has no entry for a level that does not occur. *)
Theorem count_levels_counts (levels : list level) (lvl : level) :
  App.count_levels levels !! lvl
  = match length (filter (fun l => l = lvl) levels) with
    | O => None
    | n => Some n
    end.
Proof.
  unfold App.count_levels. rewrite count_levels_from, lookup_empty.
  destruct (length (filter (fun l => l = lvl) levels)); reflexivity.
Qed.

(** X20: the tally does not depend on the order in which the levels
    were collected. *)
Theorem count_levels_any_order (levels levels' : list level) :
  levels ≡ₚ levels' -> App.count_levels levels = App.count_levels levels'.
Proof.
  intros Hperm. apply map_eq. intros lvl.
  unfold App.count_levels. rewrite !count_levels_from, Hperm. reflexivity.
Qed.

Lemma count_levels_any_order_witness :
  App.count_levels [Some INFO; None; Some ERROR; Some INFO]
  = App.count_levels [None; Some INFO; Some INFO; Some ERROR].
Proof.
  apply count_levels_any_order.
  apply (Permutation_trans (perm_swap _ _ _)).
  apply perm_skip.
  apply (Permutation_trans (perm_skip _ (perm_swap _ _ _))).
  apply perm_swap.
Defined.

Section TallyMore.
Context {S : Type}.
Implicit Types (self : LogAnalyser.t S) (st : LogAnalyser.state S).

Lemma for_lines_app self l1 l2 st :
  LogAnalyser.for_lines self (l1 ++ l2) st
  = match LogAnalyser.for_lines self l1 st with
    | (Ret _, st1) => LogAnalyser.for_lines self l2 st1
    | (Raise e, st1) => (Raise e, st1)
    end.
Proof.
  revert st. induction l1 as [|line rest IH]; intros st; [reflexivity|].
  rewrite <- app_comm_cons, !for_lines_cons.
  destruct (LogAnalyser.process_line self line st) as [[lvl|e] st1]; [|reflexivity].
  apply IH.
Qed.

(** Without a cache that keeps anything, each call returns the level
    of the parser and leaves the backend alone, so the loop counts the
    parser's levels. *)
Lemma for_lines_parsed (parser : BaseParser) (ttl : Z) (cache : option (BaseCache.t S))
      (lines : list str) (levels : list level) :
  cache = None
  \/ (cache = Some NoopCache.cache
      /\ Forall (fun line => exists key, line_cache_key line = Ret key) lines) ->
  Forall2 (fun line lvl => parser line = Ret lvl) lines levels ->
  forall st, exists tr,
    LogAnalyser.for_lines (LogAnalyser.Build parser cache ttl) lines st
    = (Ret tt,
       LogAnalyser.State (LogAnalyser.backend st)
         (fold_left (fun counts level =>
                       <[level := (default 0 (counts !! level) + 1)%nat]> counts)
                    levels (LogAnalyser.counts st))
         tr).
Proof.
  intros Hcache Hparsed. induction Hparsed as [|line lvl lines levels Hp _ IH]; intros st.
  - exists (LogAnalyser.trace st). destruct st. reflexivity.
  - rewrite for_lines_cons.
    destruct Hcache as [->|[-> Hkeys]].
    + rewrite process_line_no_cache by reflexivity. simpl. rewrite Hp.
      destruct (IH (or_introl eq_refl)
                   (LogAnalyser.State (LogAnalyser.backend st)
                      (<[lvl := (default 0 (LogAnalyser.counts st !! lvl) + 1)%nat]>
                         (LogAnalyser.counts st))
                      (LogAnalyser.trace st ++ [ParseLevel line]))) as [tr Hrun].
      exists tr. exact Hrun.
    + apply Forall_cons in Hkeys. destruct Hkeys as [[key Hk] Hkeys].
      rewrite (noop_process_line parser ttl line key lvl st Hk Hp).
      destruct (IH (or_intror (conj eq_refl Hkeys))
                   (LogAnalyser.State (LogAnalyser.backend st)
                      (<[lvl := (default 0 (LogAnalyser.counts st !! lvl) + 1)%nat]>
                         (LogAnalyser.counts st))
                      (LogAnalyser.trace st
                       ++ [CacheGet key; ParseLevel line; CacheSet key lvl ttl])))
        as [tr Hrun].
      exists tr. exact Hrun.
Qed.

End TallyMore.

(** X21: with no cache, or with the no-op cache and lines that can be
    encoded, on a fresh analyser, [process_lines] over lines that the
    parser gives a level returns the dict that the counting loop of
    the endpoints builds from those levels, and leaves it in
    [self.counts]; the backend is as it was. *)
Theorem process_lines_is_count_levels {S} (parser : BaseParser) (ttl : Z)
        (cache : option (BaseCache.t S)) (lines : list str) (levels : list level) (b : S) :
  cache = None
  \/ (cache = Some NoopCache.cache
      /\ Forall (fun line => exists key, line_cache_key line = Ret key) lines) ->
  Forall2 (fun line lvl => parser line = Ret lvl) lines levels ->
  exists st',
    LogAnalyser.process_lines (LogAnalyser.Build parser cache ttl) lines (LogAnalyser.init b)
    = (Ret (App.count_levels levels), st')
    /\ LogAnalyser.counts st' = App.count_levels levels
    /\ LogAnalyser.backend st' = b.
Proof.
  intros Hcache Hparsed.
  destruct (for_lines_parsed parser ttl cache lines levels Hcache Hparsed
                             (LogAnalyser.init b)) as [tr Hrun].
  rewrite process_lines_unfold, Hrun.
  eexists. split; [reflexivity|]. split; reflexivity.
Qed.

Lemma process_lines_is_count_levels_witness :
  exists st',
    LogAnalyser.process_lines plain_noop
      [lit "t svc INFO a"; lit "t svc DEBUG b"; lit "t svc INFO c"] (LogAnalyser.init tt)
    = (Ret (App.count_levels [Some INFO; UNKNOWN; Some INFO]), st')
    /\ LogAnalyser.counts st' !! Some INFO = Some 2%nat
    /\ LogAnalyser.counts st' !! UNKNOWN = Some 1%nat.
Proof.
  destruct (process_lines_is_count_levels (S := unit) PlainTextParser.parse_level 60
              (Some NoopCache.cache)
              [lit "t svc INFO a"; lit "t svc DEBUG b"; lit "t svc INFO c"]
              [Some INFO; UNKNOWN; Some INFO] tt)
    as (st' & Hrun & Hcounts & _).
  - right. split; [reflexivity|].
    repeat constructor; eexists; vm_compute; reflexivity.
  - repeat constructor; vm_compute; reflexivity.
  - exists st'. split; [exact Hrun|]. rewrite Hcounts.
    split; vm_compute; reflexivity.
Defined.

(** X22: [self.counts] lives as long as the analyser. A second call of
    [process_lines] goes on from the tally of the first: two calls are
    one call on the two lists joined, and the tally that a call returns
    sums to the sum before it plus the number of its lines. *)
Theorem process_lines_accumulates {S} (self : LogAnalyser.t S) (l1 l2 : list str)
        (st st1 : LogAnalyser.state S) (counts1 : gmap level nat) :
  LogAnalyser.process_lines self l1 st = (Ret counts1, st1) ->
  LogAnalyser.process_lines self (l1 ++ l2) st = LogAnalyser.process_lines self l2 st1
  /\ LogAnalyser.counts st1 = counts1
  /\ tally_sum counts1 = (tally_sum (LogAnalyser.counts st) + length l1)%nat
  /\ forall counts2 st2,
       LogAnalyser.process_lines self l2 st1 = (Ret counts2, st2) ->
       tally_sum counts2 = (tally_sum (LogAnalyser.counts st) + length l1 + length l2)%nat.
Proof.
  intros Hrun. rewrite process_lines_unfold in Hrun.
  destruct (LogAnalyser.for_lines self l1 st) as [[[]|e] st1'] eqn:Hfor; [|discriminate].
  injection Hrun as <- <-.
  pose proof (for_lines_sum _ _ _ _ Hfor) as Hsum1.
  split; [|split; [reflexivity|split; [exact Hsum1|]]].
  - rewrite !process_lines_unfold, for_lines_app, Hfor. reflexivity.
  - intros counts2 st2 Hrun2. rewrite process_lines_unfold in Hrun2.
    destruct (LogAnalyser.for_lines self l2 st1') as [[[]|e] st2'] eqn:Hfor2;
      [|discriminate].
    injection Hrun2 as <- <-.
    rewrite (for_lines_sum _ _ _ _ Hfor2), Hsum1. reflexivity.
Qed.

Lemma process_lines_accumulates_witness :
  let l1 := [lit "t svc INFO a"; lit "t svc ERROR b"] in
  let l2 := [lit "t svc INFO c"] in
  exists counts1 st1 st2,
    LogAnalyser.process_lines plain_noop l1 (LogAnalyser.init tt) = (Ret counts1, st1)
    /\ tally_sum counts1 = 2%nat
    /\ LogAnalyser.process_lines plain_noop l2 st1
       = (Ret (<[Some INFO := 2%nat]> {[Some ERROR := 1%nat]}), st2).
Proof.
  intros l1 l2.
  destruct (LogAnalyser.process_lines plain_noop l1 (LogAnalyser.init tt))
    as [[counts1|e] st1] eqn:Hrun; [|vm_compute in Hrun; discriminate].
  destruct (process_lines_accumulates plain_noop l1 l2 _ _ _ Hrun)
    as (Hjoin & _ & Hsum & _).
  exists counts1, st1, (LogAnalyser.process_lines plain_noop l2 st1).2.
  split; [reflexivity|]. split; [exact Hsum|].
  rewrite <- Hjoin. vm_compute. reflexivity.
Defined.

(** X23: a call of [process_line] that raises ends [process_lines].
    The exception reaches the caller, the lines after it are not
    processed (the state is the one that the failing call left), no
    tally is returned, and the lines before it stay counted in
    [self.counts]. *)
Theorem process_lines_stops_at_first_fault {S} (self : LogAnalyser.t S)
        (before after : list str) (bad : str) (e : exn)
        (st st1 st2 : LogAnalyser.state S) (counts1 : gmap level nat) :
  LogAnalyser.process_lines self before st = (Ret counts1, st1) ->
  LogAnalyser.process_line self bad st1 = (Raise e, st2) ->
  LogAnalyser.process_lines self (before ++ bad :: after) st = (Raise e, st2)
  /\ LogAnalyser.counts st2 = counts1
  /\ tally_sum counts1 = (tally_sum (LogAnalyser.counts st) + length before)%nat.
Proof.
  intros Hbefore Hbad. rewrite process_lines_unfold in Hbefore.
  destruct (LogAnalyser.for_lines self before st) as [[[]|e'] st1'] eqn:Hfor;
    [|discriminate].
  injection Hbefore as <- <-.
  split; [|split].
  - rewrite process_lines_unfold, for_lines_app, Hfor, for_lines_cons, Hbad.
    reflexivity.
  - pose proof (process_line_counts self bad st1') as Hkeep.
    rewrite Hbad in Hkeep. exact Hkeep.
  - exact (for_lines_sum _ _ _ _ Hfor).
Qed.

Lemma process_lines_stops_at_first_fault_witness :
  exists st2,
    LogAnalyser.process_lines plain_noop
      [lit "2024-01-01 svcA INFO start"; lit "garbage"; lit "2024-01-01 svcA ERROR fail"]
      (LogAnalyser.init tt)
    = (Raise IndexError, st2)
    /\ LogAnalyser.counts st2 = {[Some INFO := 1%nat]}
    /\ filter is_parse (LogAnalyser.trace st2)
       = [ParseLevel (lit "2024-01-01 svcA INFO start"); ParseLevel (lit "garbage")].
Proof.
  set (st1 := (LogAnalyser.process_lines plain_noop [lit "2024-01-01 svcA INFO start"]
                                         (LogAnalyser.init tt)).2).
  set (st2 := (LogAnalyser.process_line plain_noop (lit "garbage") st1).2).
  destruct (process_lines_stops_at_first_fault plain_noop
              [lit "2024-01-01 svcA INFO start"] [lit "2024-01-01 svcA ERROR fail"]
              (lit "garbage") IndexError (LogAnalyser.init tt) st1 st2
              {[Some INFO := 1%nat]})
    as (Hrun & Hcounts & _);
    [vm_compute; reflexivity|vm_compute; reflexivity|].
  exists st2. split; [exact Hrun|]. split; [exact Hcounts|].
  vm_compute. reflexivity.
Defined.
